(** * FDC3 context signing with AWS KMS: a model of [src/aws-kms-signer.ts]

    The development follows the TypeScript class [FDC3AWSKMSSigner]:
    the canonical JSON writer ([canonicalizeContext]), the DER to PEM
    conversion ([derToPem]), the algorithm table ([getNodeAlgorithm]) and
    the two asynchronous operations [sign] and [verify].

    ECMAScript strings are sequences of 16-bit code units, so a string is a
    [list N]; buffers are [list byte].  A payload is a JSON value: [null], a
    boolean, a Number, a string, an array or an ordinary object.  What the
    class calls outside itself is abstract: the KMS client is a record of
    response functions, and the functions of Node.js ([crypto], [Date.now],
    the [Buffer] conversions other than base64 encoding) are the members of a
    type class.  The theorems hold for every client and every runtime. *)

From Stdlib Require Import NArith ZArith Strings.Ascii Strings.Byte.
From stdpp Require Import base decidable option list sorting strings.

Local Open Scope N_scope.

(** ** ECMAScript strings *)

Abbreviation jsstring := (list N) (only parsing).
Abbreviation bytes := (list byte) (only parsing).

#[global] Instance byte_eq_dec : EqDecision byte := Byte.byte_eq_dec.

(** A string literal of the source, as its code units. *)
Definition js (s : string) : jsstring :=
  (λ a, N_of_ascii a) <$> String.list_ascii_of_string s.
Arguments js : simpl never.

(** [Array.prototype.join] on an array of strings. *)
Fixpoint join (sep : jsstring) (l : list jsstring) : jsstring :=
  match l with
  | [] => []
  | [x] => x
  | x :: l' => x ++ sep ++ join sep l'
  end.

(** [needle] occurs in [hay] ([String.prototype.includes]). *)
Fixpoint starts_with (prefix s : jsstring) : bool :=
  match prefix, s with
  | [], _ => true
  | _ :: _, [] => false
  | a :: prefix', b :: s' => (a =? b) && starts_with prefix' s'
  end.

Fixpoint includes (hay needle : jsstring) : bool :=
  starts_with needle hay ||
  match hay with
  | [] => false
  | _ :: hay' => includes hay' needle
  end.

(** The comparison of two strings by [<]: code unit by code unit, a proper
    prefix being smaller. *)
Fixpoint string_lt (x y : jsstring) : bool :=
  match x, y with
  | _, [] => false
  | [], _ :: _ => true
  | a :: x', b :: y' =>
      if a <? b then true else if b <? a then false else string_lt x' y'
  end.

(** [Array.prototype.sort] without a comparator orders strings by [<].
    [x] may stay before [y] when [y < x] does not hold.  On an array of
    distinct strings every sorting algorithm returns the same array; merge
    sort stands for the engine's. *)
Definition sort_le (x y : jsstring) : Prop := string_lt y x = false.

#[global] Instance sort_le_dec : RelDecision sort_le :=
  λ x y, decide (string_lt y x = false).

Definition Array_sort (l : list jsstring) : list jsstring :=
  merge_sort sort_le l.

(** ** Ordinary objects

    An object is the list of its own properties in the order of their
    creation.  All properties are enumerable data properties. *)

Definition is_decimal_digit (c : N) : bool := (48 <=? c) && (c <=? 57).

Fixpoint decimal_value (acc : N) (s : jsstring) : N :=
  match s with
  | [] => acc
  | c :: s' => decimal_value (10 * acc + (c - 48)) s'
  end.

(** An array index is a canonical numeric string (no sign, no leading zero)
    whose value is below [2^32 - 1]. *)
Definition array_index (P : jsstring) : option N :=
  match P with
  | [] => None
  | c :: rest =>
      if forallb is_decimal_digit P && (negb (c =? 48) || bool_decide (rest = []))
      then let i := decimal_value 0 P in
           if i <? 2 ^ 32 - 1 then Some i else None
      else None
  end.

Definition index_le (k1 k2 : jsstring) : Prop :=
  default 0 (array_index k1) ≤ default 0 (array_index k2).

#[global] Instance index_le_dec : RelDecision index_le :=
  λ k1 k2, decide (default 0 (array_index k1) ≤ default 0 (array_index k2)).

Section Objects.
Context {V : Type}.

(** [OrdinaryOwnPropertyKeys]: the array indices in ascending numeric
    order, then the other string keys in the order of their creation.
    [Object.keys] and [JSON.stringify] both enumerate in this order. *)
Definition OwnPropertyKeys (O : list (jsstring * V)) : list jsstring :=
  merge_sort index_le (filter (λ k, is_Some (array_index k)) O.*1)
    ++ filter (λ k, array_index k = None) O.*1.

Definition Object_keys (O : list (jsstring * V)) : list jsstring :=
  OwnPropertyKeys O.

(** [O[key]] for an own property. *)
Fixpoint Get (O : list (jsstring * V)) (key : jsstring) : option V :=
  match O with
  | [] => None
  | (k, v) :: O' => if decide (k = key) then Some v else Get O' key
  end.

Fixpoint CreateDataProperty (O : list (jsstring * V)) (key : jsstring) (v : V)
  : list (jsstring * V) :=
  match O with
  | [] => [(key, v)]
  | (k, w) :: O' =>
      if decide (k = key) then (k, v) :: O'
      else (k, w) :: CreateDataProperty O' key v
  end.

(** [O[key] = v] on an object created by [{}].  The key [__proto__] is
    an accessor of [Object.prototype]: the assignment calls its setter and
    creates no own property.  Every other key becomes (or updates) an own
    data property. *)
Definition OrdinarySet (O : list (jsstring * V)) (key : jsstring) (v : V)
  : list (jsstring * V) :=
  if decide (key = js "__proto__") then O else CreateDataProperty O key v.
End Objects.

(** ** JSON values *)

(** What [JSON.stringify] writes for a Number: its shortest decimal form,
    or [null] when it is not finite. *)
Class JSONNumber (number : Type) := SerializeNumber : number → jsstring.

Section Values.
Context {number : Type}.

Unset Elimination Schemes.
Inductive value : Type :=
| VNull
| VBool (b : bool)
| VNum (n : number)
| VStr (s : jsstring)
| VArr (elements : list value)
| VObj (properties : list (jsstring * value)).
Set Elimination Schemes.

Section value_ind.
Variable P : value → Prop.
Hypothesis Hnull : P VNull.
Hypothesis Hbool : ∀ b, P (VBool b).
Hypothesis Hnum : ∀ n, P (VNum n).
Hypothesis Hstr : ∀ s, P (VStr s).
Hypothesis Harr : ∀ elements, Forall P elements → P (VArr elements).
Hypothesis Hobj : ∀ properties,
  Forall (λ p, P p.2) properties → P (VObj properties).

Fixpoint value_ind (v : value) : P v :=
  match v with
  | VNull => Hnull
  | VBool b => Hbool b
  | VNum n => Hnum n
  | VStr s => Hstr s
  | VArr elements =>
      Harr elements
        ((fix go l : Forall P l :=
            match l with
            | [] => Forall_nil_2 P
            | x :: l' => Forall_cons_2 P x l' (value_ind x) (go l')
            end) elements)
  | VObj properties =>
      Hobj properties
        ((fix go l : Forall (λ p, P p.2) l :=
            match l with
            | [] => Forall_nil_2 _
            | p :: l' => Forall_cons_2 _ p l' (value_ind p.2) (go l')
            end) properties)
  end.
End value_ind.

(** *** [sortKeys], the local function of [canonicalizeContext] *)

(** The body of [forEach(key => { sorted[key] = sortKeys(obj[key]) })];
    [read] holds [sortKeys(obj[k])] for every key [k] of [obj].  The keys
    come from [Object.keys(obj)], so the read always finds a property. *)
Definition assign_sorted (read : list (jsstring * value))
    (sorted : list (jsstring * value)) (key : jsstring)
  : list (jsstring * value) :=
  match Get read key with
  | Some v => OrdinarySet sorted key v
  | None => sorted
  end.

Fixpoint sortKeys (obj : value) : value :=
  match obj with
  | VArr elements => VArr (map sortKeys elements)
  | VObj properties =>
      let read := map (λ p, (p.1, sortKeys p.2)) properties in
      VObj (foldl (assign_sorted read) [] (Array_sort (Object_keys properties)))
  | _ => obj
  end.
End Values.

Arguments value : clear implicits.

(** ** [JSON.stringify] *)

Definition hex_digit (n : N) : N := if n <? 10 then 48 + n else 87 + n.

(** [UnicodeEscape]: a backslash, [u] and four lowercase hexadecimal digits. *)
Definition UnicodeEscape (c : N) : jsstring :=
  [92; 117; hex_digit (c / 4096 mod 16); hex_digit (c / 256 mod 16);
   hex_digit (c / 16 mod 16); hex_digit (c mod 16)].

Definition is_leading_surrogate (c : N) : bool := (55296 <=? c) && (c <=? 56319).
Definition is_trailing_surrogate (c : N) : bool := (56320 <=? c) && (c <=? 57343).

(** The escapes of [QuoteJSONString].  A backslash is an ordinary character
    of the literals below: [js "\b"] is the two code units 92 and 98. *)
Fixpoint quote_code_units (s : jsstring) : jsstring :=
  match s with
  | [] => []
  | c :: s' =>
      if c =? 8 then js "\b" ++ quote_code_units s'
      else if c =? 9 then js "\t" ++ quote_code_units s'
      else if c =? 10 then js "\n" ++ quote_code_units s'
      else if c =? 12 then js "\f" ++ quote_code_units s'
      else if c =? 13 then js "\r" ++ quote_code_units s'
      else if c =? 34 then [92; 34] ++ quote_code_units s'
      else if c =? 92 then [92; 92] ++ quote_code_units s'
      else if c <? 32 then UnicodeEscape c ++ quote_code_units s'
      else if is_leading_surrogate c then
        match s' with
        | d :: s'' =>
            if is_trailing_surrogate d then c :: d :: quote_code_units s''
            else UnicodeEscape c ++ quote_code_units s'
        | [] => UnicodeEscape c
        end
      else if is_trailing_surrogate c then UnicodeEscape c ++ quote_code_units s'
      else c :: quote_code_units s'
  end.

Definition QuoteJSONString (s : jsstring) : jsstring :=
  [34] ++ quote_code_units s ++ [34].

Section Stringify.
Context `{JSONNumber number}.

(** One member of an object: the quoted key, a colon and the text of the
    value; [written] holds the text of every property value. *)
Definition member (written : list (jsstring * jsstring)) (key : jsstring)
  : option jsstring :=
  (λ text, QuoteJSONString key ++ js ":" ++ text) <$> Get written key.

(** [JSON.stringify(v)] with no replacer and no indentation. *)
Fixpoint JSON_stringify (v : value number) : jsstring :=
  match v with
  | VNull => js "null"
  | VBool b => if b then js "true" else js "false"
  | VNum n => SerializeNumber n
  | VStr s => QuoteJSONString s
  | VArr elements =>
      js "[" ++ join (js ",") (map JSON_stringify elements) ++ js "]"
  | VObj properties =>
      let written := map (λ p, (p.1, JSON_stringify p.2)) properties in
      js "{" ++ join (js ",") (omap (member written) (OwnPropertyKeys properties))
        ++ js "}"
  end.

(** [canonicalizeContext]: [JSON.stringify(sortKeys(context))]. *)
Definition canonicalizeContext (context : value number) : jsstring :=
  JSON_stringify (sortKeys context).
End Stringify.

(** Integral Numbers written in decimal, as [JSON.stringify] writes the
    integers that a Number holds exactly: those of absolute value at most
    [2^53].  Beyond them a Number is written in its shortest form that reads
    back, which is not the decimal form of the integer. *)
Fixpoint decimal_digits (fuel : nat) (n : N) (acc : jsstring) : jsstring :=
  match fuel with
  | O => acc
  | S fuel' =>
      if n <? 10 then (48 + n) :: acc
      else decimal_digits fuel' (n / 10) ((48 + n mod 10) :: acc)
  end.

#[global] Instance Z_JSONNumber : JSONNumber Z := λ z,
  let digits := decimal_digits (S (N.to_nat (N.log2 (Z.abs_N z)))) (Z.abs_N z) [] in
  if (z <? 0)%Z then 45 :: digits else digits.

(** ** [derToPem] *)

(** The base64 alphabet of RFC 4648. *)
Definition base64_char (n : N) : N :=
  if n <? 26 then 65 + n
  else if n <? 52 then 97 + (n - 26)
  else if n <? 62 then 48 + (n - 52)
  else if n =? 62 then 43 else 47.

(** [buffer.toString('base64')]: three bytes give four characters, the last
    group is padded with [=]. *)
Fixpoint toString_base64 (buffer : bytes) : jsstring :=
  match buffer with
  | [] => []
  | [x] =>
      let a := Byte.to_N x in
      [base64_char (a / 4); base64_char (a mod 4 * 16); 61; 61]
  | [x; y] =>
      let a := Byte.to_N x in
      let b := Byte.to_N y in
      [base64_char (a / 4); base64_char (a mod 4 * 16 + b / 16);
       base64_char (b mod 16 * 4); 61]
  | x :: y :: z :: rest =>
      let a := Byte.to_N x in
      let b := Byte.to_N y in
      let c := Byte.to_N z in
      base64_char (a / 4) :: base64_char (a mod 4 * 16 + b / 16)
        :: base64_char (b mod 16 * 4 + c / 64) :: base64_char (c mod 64)
        :: toString_base64 rest
  end.

(** The characters that [.] does not match. *)
Definition is_line_terminator (c : N) : bool :=
  (c =? 10) || (c =? 13) || (c =? 8232) || (c =? 8233).

Definition flush (current : jsstring) : list jsstring :=
  match current with
  | [] => []
  | _ => [current]
  end.

(** The successive matches of [/.{1,64}/g]: each match takes as many
    characters as it can, up to 64, and stops before a line terminator;
    [current] is the match under way. *)
Fixpoint matches_dot_1_64 (current s : jsstring) : list jsstring :=
  match s with
  | [] => flush current
  | c :: s' =>
      if is_line_terminator c then flush current ++ matches_dot_1_64 [] s'
      else
        let current' := current ++ [c] in
        if (length current' =? 64)%nat then current' :: matches_dot_1_64 [] s'
        else matches_dot_1_64 current' s'
  end.

(** [s.match(/.{1,64}/g)]: [null] when nothing matches. *)
Definition String_match (s : jsstring) : option (list jsstring) :=
  match matches_dot_1_64 [] s with
  | [] => None
  | found => Some found
  end.

(** [a || b] on strings: [b] when [a] is [undefined] or empty. *)
Definition or_else (a : option jsstring) (b : jsstring) : jsstring :=
  match a with
  | None | Some [] => b
  | Some a' => a'
  end.

Definition pem_header : jsstring := js "-----BEGIN PUBLIC KEY-----".
Definition pem_footer : jsstring := js "-----END PUBLIC KEY-----".

Definition derToPem (derBuffer : bytes) : jsstring :=
  let base64 := toString_base64 derBuffer in
  let pem := or_else (join [10] <$> String_match base64) base64 in
  pem_header ++ [10] ++ pem ++ [10] ++ pem_footer.

(** ** Exceptions and results *)

(** A thrown value: an [Error] with its message, any other value with
    what [String] makes of it, or a value of which no text can be made: its
    conversion to a string throws in its turn (an object that has neither
    [toString] nor [valueOf], as [Object.create(null)], or one whose
    [toString] throws; an [Error] whose [message] is a Symbol). *)
Inductive thrown : Type :=
| ErrorObject (message : jsstring)
| OtherValue (text : jsstring)
| Unprintable (raised : thrown).

Inductive result (A : Type) : Type :=
| Ok (a : A)
| Throw (error : thrown).
Arguments Ok {A} a.
Arguments Throw {A} error.

(** [error instanceof Error ? error.message : String(error)] inside a
    template literal: the text, or what the conversion throws. *)
Definition describe (error : thrown) : result jsstring :=
  match error with
  | ErrorObject message => Ok message
  | OtherValue text => Ok text
  | Unprintable raised => Throw raised
  end.

(** ** [getNodeAlgorithm] *)

Definition RSASSA_PKCS1_V1_5_SHA_256 : jsstring := js "RSASSA_PKCS1_V1_5_SHA_256".
Definition ECDSA_SHA_256 : jsstring := js "ECDSA_SHA_256".

Definition getNodeAlgorithm (kmsAlgorithm : jsstring) : result jsstring :=
  if decide (kmsAlgorithm = RSASSA_PKCS1_V1_5_SHA_256) then Ok (js "RSA-SHA256")
  else if decide (kmsAlgorithm = ECDSA_SHA_256) then Ok (js "sha256")
  else Throw (ErrorObject (js "Unsupported algorithm: " ++ kmsAlgorithm)).

(** ** The key service and the runtime *)

Inductive MessageType : Type := RAW | DIGEST.

Module SignCommand.
Record Input : Type := {
  KeyId : jsstring;
  Message : bytes;
  MessageType : MessageType;
  SigningAlgorithm : jsstring }.
Record Output : Type := { Signature : option bytes }.
End SignCommand.

Module GetPublicKeyCommand.
Record Input : Type := { KeyId : jsstring }.
Record Output : Type := { PublicKey : option bytes }.
End GetPublicKeyCommand.

(** [KMSClient.send] for the two commands of the class: the promise is
    fulfilled with an output or rejected. *)
Record KMSClient : Type := {
  send_Sign : SignCommand.Input → result SignCommand.Output;
  send_GetPublicKey : GetPublicKeyCommand.Input → result GetPublicKeyCommand.Output }.

(** The calls that leave the process, in the order in which they are made. *)
Inductive call : Type :=
| Call_Sign (input : SignCommand.Input)
| Call_GetPublicKey (input : GetPublicKeyCommand.Input)
| Call_Date_now
| Call_Verify (algorithm : jsstring) (data : bytes) (key : jsstring) (signature : bytes).

(** The functions of Node.js that the class calls.  [Verify_verify] stands
    for [crypto.createVerify(algorithm)], [update(data)] and
    [verify(key, signature)] on the verifier so created.  [Date_now] is the
    clock: what it reads depends on the moment at which it is read, which
    is given by the calls made until then. *)
Class NodeRuntime : Type := {
  Buffer_from_utf8 : jsstring → bytes;
  Buffer_from_base64 : jsstring → bytes;
  Date_now : list call → Z;
  Verify_verify : jsstring → bytes → jsstring → bytes → result bool }.

(** An asynchronous computation: it extends the log of calls and is
    fulfilled or rejected. *)
Definition io (A : Type) : Type := list call → result A * list call.

#[global] Instance io_ret : MRet io := λ A a log, (Ok a, log).

#[global] Instance io_bind : MBind io := λ A B f m log,
  match m log with
  | (Ok a, log') => f a log'
  | (Throw error, log') => (Throw error, log')
  end.

Definition throw {A} (error : thrown) : io A := λ log, (Throw error, log).

Definition try_catch {A} (body : io A) (handler : thrown → io A) : io A :=
  λ log,
    match body log with
    | (Ok a, log') => (Ok a, log')
    | (Throw error, log') => handler error log'
    end.

(** A call to the outside: it is logged, and its outcome is the
    computation's. *)
Definition await {A} (c : call) (outcome : result A) : io A :=
  λ log, (outcome, log ++ [c]).

(** A local computation that may throw. *)
Definition local {A} (outcome : result A) : io A := λ log, (outcome, log).

(** A reading of a clock: it is logged, and it is the reading of the
    moment. *)
Definition reading {A} (c : call) (clock : list call → A) : io A :=
  λ log, (Ok (clock log), log ++ [c]).

Definition run {A} (m : io A) : result A * list call := m [].

(** ** The types of [types.ts] *)

Module AWSKMSSignerConfig.
Record t : Type := { keyId : jsstring; region : option jsstring }.
End AWSKMSSignerConfig.

Module SignedContext.
Record t {number : Type} : Type := {
  context : value number;
  signature : jsstring;
  keyId : jsstring;
  timestamp : Z;
  algorithm : jsstring }.
Arguments t : clear implicits.
End SignedContext.

(** An absent property and a property holding [undefined] read the same:
    both are [None]. *)
Module VerificationResult.
Record t {number : Type} : Type := {
  isValid : bool;
  error : option jsstring;
  context : option (value number) }.
Arguments t : clear implicits.
End VerificationResult.

Record FDC3AWSKMSSigner : Type := {
  kmsClient : KMSClient;
  config : AWSKMSSignerConfig.t }.

(** ** [sign] and [verify] *)

Section Signer.
Context `{JSONNumber number} `{NodeRuntime}.
Variable this : FDC3AWSKMSSigner.

Definition sign_body (context : value number) (algorithm : jsstring)
  : io (SignedContext.t number) :=
  let contextString := canonicalizeContext context in
  let message := Buffer_from_utf8 contextString in
  let signCommand :=
    {| SignCommand.KeyId := AWSKMSSignerConfig.keyId (config this);
       SignCommand.Message := message;
       SignCommand.MessageType := RAW;
       SignCommand.SigningAlgorithm := algorithm |} in
  signResult ← await (Call_Sign signCommand) (send_Sign (kmsClient this) signCommand);
  match SignCommand.Signature signResult with
  | None => throw (ErrorObject (js "KMS signing failed: No signature returned"))
  | Some raw =>
      let signature := toString_base64 raw in
      now ← reading Call_Date_now Date_now;
      mret {| SignedContext.context := context;
              SignedContext.signature := signature;
              SignedContext.keyId := AWSKMSSignerConfig.keyId (config this);
              SignedContext.timestamp := now;
              SignedContext.algorithm := algorithm |}
  end.

(** [sign(context, algorithm)]; an omitted [algorithm] is [None]. *)
Definition sign (context : value number) (algorithm : option jsstring)
  : io (SignedContext.t number) :=
  try_catch (sign_body context (default RSASSA_PKCS1_V1_5_SHA_256 algorithm))
    (λ error,
       cause ← local (describe error);
       throw (ErrorObject (js "Failed to sign FDC3 context: " ++ cause))).

Definition verify_body (signedContext : SignedContext.t number)
  : io (VerificationResult.t number) :=
  let getPublicKeyCommand :=
    {| GetPublicKeyCommand.KeyId := SignedContext.keyId signedContext |} in
  publicKeyResult ← await (Call_GetPublicKey getPublicKeyCommand)
                      (send_GetPublicKey (kmsClient this) getPublicKeyCommand);
  match GetPublicKeyCommand.PublicKey publicKeyResult with
  | None =>
      mret {| VerificationResult.isValid := false;
              VerificationResult.error :=
                Some (js "Could not retrieve public key from KMS");
              VerificationResult.context := None |}
  | Some publicKey =>
      let contextString := canonicalizeContext (SignedContext.context signedContext) in
      let message := Buffer_from_utf8 contextString in
      let signature := Buffer_from_base64 (SignedContext.signature signedContext) in
      let publicKeyPem := derToPem publicKey in
      nodeAlgorithm ← local (getNodeAlgorithm (SignedContext.algorithm signedContext));
      isValid ← await (Call_Verify nodeAlgorithm message publicKeyPem signature)
                  (Verify_verify nodeAlgorithm message publicKeyPem signature);
      mret {| VerificationResult.isValid := isValid;
              VerificationResult.context :=
                if isValid then Some (SignedContext.context signedContext) else None;
              VerificationResult.error :=
                if isValid then None else Some (js "Signature verification failed") |}
  end.

Definition verify (signedContext : SignedContext.t number)
  : io (VerificationResult.t number) :=
  try_catch (verify_body signedContext)
    (λ error,
       cause ← local (describe error);
       mret {| VerificationResult.isValid := false;
               VerificationResult.error :=
                 Some (js "Verification error: " ++ cause);
               VerificationResult.context := None |}).

(** *** Names for the requests and the outcomes *)

(** The request that [sign] sends. *)
Definition sign_request (context : value number) (algorithm : jsstring) : SignCommand.Input :=
  {| SignCommand.KeyId := AWSKMSSignerConfig.keyId (config this);
     SignCommand.Message := Buffer_from_utf8 (canonicalizeContext context);
     SignCommand.MessageType := RAW;
     SignCommand.SigningAlgorithm := algorithm |}.

(** The envelope that [sign] returns for the signature [raw], when the
    clock reads [now]. *)
Definition signed (context : value number) (algorithm : jsstring) (raw : bytes)
    (now : Z) : SignedContext.t number :=
  {| SignedContext.context := context;
     SignedContext.signature := toString_base64 raw;
     SignedContext.keyId := AWSKMSSignerConfig.keyId (config this);
     SignedContext.timestamp := now;
     SignedContext.algorithm := algorithm |}.

(** The request that [verify] sends. *)
Definition key_request (signedContext : SignedContext.t number) : GetPublicKeyCommand.Input :=
  {| GetPublicKeyCommand.KeyId := SignedContext.keyId signedContext |}.

Definition accepted (context : value number) : VerificationResult.t number :=
  {| VerificationResult.isValid := true;
     VerificationResult.error := None;
     VerificationResult.context := Some context |}.

Definition rejected (detail : jsstring) : VerificationResult.t number :=
  {| VerificationResult.isValid := false;
     VerificationResult.error := Some detail;
     VerificationResult.context := None |}.

Definition sign_failure (cause : jsstring) : thrown :=
  ErrorObject (js "Failed to sign FDC3 context: " ++ cause).

(** What the handler of [sign] throws when it has caught [error]. *)
Definition rethrown (error : thrown) : thrown :=
  match describe error with
  | Ok cause => sign_failure cause
  | Throw raised => raised
  end.

(** What the handler of [verify] returns, or throws, when it has caught
    [error]. *)
Definition caught (error : thrown) : result (VerificationResult.t number) :=
  match describe error with
  | Ok cause => Ok (rejected (js "Verification error: " ++ cause))
  | Throw raised => Throw raised
  end.

(** A step of the body of [verify] throws [error]: the request for the
    key, or, once a key is there, the algorithm table, or, once the
    algorithm is mapped, the cryptographic verification. *)
Definition step_throws (signedContext : SignedContext.t number) (error : thrown)
  : Prop :=
  send_GetPublicKey (kmsClient this) (key_request signedContext) = Throw error
  ∨ ∃ publicKey,
      send_GetPublicKey (kmsClient this) (key_request signedContext)
        = Ok {| GetPublicKeyCommand.PublicKey := Some publicKey |}
      ∧ (getNodeAlgorithm (SignedContext.algorithm signedContext) = Throw error
         ∨ ∃ nodeAlgorithm,
             getNodeAlgorithm (SignedContext.algorithm signedContext) = Ok nodeAlgorithm
             ∧ Verify_verify nodeAlgorithm
                 (Buffer_from_utf8 (canonicalizeContext (SignedContext.context signedContext)))
                 (derToPem publicKey)
                 (Buffer_from_base64 (SignedContext.signature signedContext))
               = Throw error).
End Signer.

(** ** Notions used by the statements *)

Section Notions.
Context {number : Type}.

(** Every object of [v], at every depth, has pairwise distinct keys: [v]
    is a tree of real objects. *)
Fixpoint distinct_keys (v : value number) : bool :=
  match v with
  | VArr elements => forallb distinct_keys elements
  | VObj properties =>
      bool_decide (NoDup properties.*1)
        && forallb (λ p, distinct_keys p.2) properties
  | _ => true
  end.

(** [reordered o o']: [o'] has the keys and values of [o], the properties of
    any of its objects being created in another order. *)
#[warnings="-register-all"] Inductive reordered : value number → value number → Prop :=
| reordered_null : reordered VNull VNull
| reordered_bool b : reordered (VBool b) (VBool b)
| reordered_num n : reordered (VNum n) (VNum n)
| reordered_str s : reordered (VStr s) (VStr s)
| reordered_arr elements elements' :
    Forall2 reordered elements elements' →
    reordered (VArr elements) (VArr elements')
| reordered_obj properties renewed properties' :
    Forall2 (λ p q, p.1 = q.1 ∧ reordered p.2 q.2) properties renewed →
    renewed ≡ₚ properties' →
    reordered (VObj properties) (VObj properties').

(** The keys of [keys] ascend for [<] on strings. *)
Fixpoint ascending (keys : list jsstring) : bool :=
  match keys with
  | k1 :: ((k2 :: _) as rest) => string_lt k1 k2 && ascending rest
  | _ => true
  end.

(** At every depth the keys of [v] are enumerated in ascending order. *)
Fixpoint keys_ascending (v : value number) : bool :=
  match v with
  | VArr elements => forallb keys_ascending elements
  | VObj properties =>
      ascending (OwnPropertyKeys properties)
        && forallb (λ p, keys_ascending p.2) properties
  | _ => true
  end.

(** The properties that the loop of [sortKeys] creates for [keys]. *)
Definition entries (read : list (jsstring * value number)) (keys : list jsstring)
  : list (jsstring * value number) :=
  omap (λ key, (λ v, (key, v)) <$> Get read key) keys.

(** No key of [v] is an array index or [__proto__]. *)
Fixpoint plain_keys (v : value number) : bool :=
  match v with
  | VArr elements => forallb plain_keys elements
  | VObj properties =>
      forallb (λ p, bool_decide (array_index p.1 = None)
                      && bool_decide (p.1 ≠ js "__proto__")
                      && plain_keys p.2) properties
  | _ => true
  end.
End Notions.

(** A quoted literal, as [JSON.stringify] writes it. *)
Definition quoted (s : string) : jsstring := [34] ++ js s ++ [34].

(** [lines] are the lines of a text folded at [width]: every line but the
    last has [width] characters, the last has between 1 and [width]. *)
Fixpoint folded (width : nat) (lines : list jsstring) : Prop :=
  match lines with
  | [] => True
  | [l] => (0 < length l ≤ width)%nat
  | l :: rest => length l = width ∧ folded width rest
  end.

(** The identifiers of the algorithm table. *)
Definition supported (algorithm : jsstring) : Prop :=
  algorithm = RSASSA_PKCS1_V1_5_SHA_256 ∨ algorithm = ECDSA_SHA_256.


(** The outcome is a rejection whose [error] contains [text]. *)
Definition rejects_naming {number : Type}
    (outcome : VerificationResult.t number) (text : jsstring) : Prop :=
  VerificationResult.isValid outcome = false
  ∧ ∃ detail,
      VerificationResult.error outcome = Some detail
      ∧ includes detail text = true.

(** ** A reference runtime

    UTF-8 encoding as Node.js performs it, a decoder of base64 for the text
    that [toString_base64] writes, and a key service small enough to
    compute with. *)

Definition to_byte (n : N) : byte := default "000"%byte (Byte.of_N n).

Definition utf8_code_point (cp : N) : bytes :=
  if cp <? 128 then [to_byte cp]
  else if cp <? 2048 then [to_byte (192 + cp / 64); to_byte (128 + cp mod 64)]
  else if cp <? 65536 then
    [to_byte (224 + cp / 4096); to_byte (128 + cp / 64 mod 64);
     to_byte (128 + cp mod 64)]
  else
    [to_byte (240 + cp / 262144); to_byte (128 + cp / 4096 mod 64);
     to_byte (128 + cp / 64 mod 64); to_byte (128 + cp mod 64)].

Fixpoint utf8_encode (s : jsstring) : bytes :=
  match s with
  | [] => []
  | c :: s' =>
      if is_leading_surrogate c then
        match s' with
        | d :: s'' =>
            if is_trailing_surrogate d
            then utf8_code_point (65536 + (c - 55296) * 1024 + (d - 56320))
                   ++ utf8_encode s''
            else utf8_code_point 65533 ++ utf8_encode s'
        | [] => utf8_code_point 65533
        end
      else if is_trailing_surrogate c then utf8_code_point 65533 ++ utf8_encode s'
      else utf8_code_point c ++ utf8_encode s'
  end.

Definition base64_value (c : N) : option N :=
  if (65 <=? c) && (c <=? 90) then Some (c - 65)
  else if (97 <=? c) && (c <=? 122) then Some (c - 97 + 26)
  else if (48 <=? c) && (c <=? 57) then Some (c - 48 + 52)
  else if c =? 43 then Some 62
  else if c =? 47 then Some 63
  else None.

(** Decoding of padded base64 text, four characters at a time.  This is
    the strict decoder of RFC 4648; on the text that [toString_base64]
    writes it gives what [Buffer.from(text, 'base64')] gives.  On other
    text Node.js is lenient (it skips what is not of the alphabet) and the
    two differ. *)
Fixpoint base64_decode (s : jsstring) : bytes :=
  match s with
  | c1 :: c2 :: c3 :: c4 :: rest =>
      match base64_value c1, base64_value c2, base64_value c3, base64_value c4 with
      | Some a, Some b, Some c, Some d =>
          to_byte (a * 4 + b / 16) :: to_byte (b mod 16 * 16 + c / 4)
            :: to_byte (c mod 4 * 64 + d) :: base64_decode rest
      | Some a, Some b, Some c, None =>
          [to_byte (a * 4 + b / 16); to_byte (b mod 16 * 16 + c / 4)]
      | Some a, Some b, None, _ => [to_byte (a * 4 + b / 16)]
      | _, _, _, _ => []
      end
  | _ => []
  end.

Module Demo.
Definition publicKey : bytes := utf8_encode (js "demo public key").

(** The signature of a message is the message reversed; it verifies under
    the one public key of the service. *)
Definition runtime : NodeRuntime := {|
  Buffer_from_utf8 := utf8_encode;
  Buffer_from_base64 := base64_decode;
  Date_now := λ log, (1700000000000 + Z.of_nat (length log))%Z;
  Verify_verify := λ algorithm data key signature,
    Ok (bool_decide (key = derToPem publicKey) && bool_decide (signature = reverse data)) |}.

Definition kms : KMSClient := {|
  send_Sign := λ input,
    Ok {| SignCommand.Signature := Some (reverse (SignCommand.Message input)) |};
  send_GetPublicKey := λ input,
    Ok {| GetPublicKeyCommand.PublicKey := Some publicKey |} |}.

(** The service answers, with neither signature nor key. *)
Definition kms_empty : KMSClient := {|
  send_Sign := λ input, Ok {| SignCommand.Signature := None |};
  send_GetPublicKey := λ input, Ok {| GetPublicKeyCommand.PublicKey := None |} |}.






Definition signer_config : AWSKMSSignerConfig.t := {|
  AWSKMSSignerConfig.keyId := js "alias/fdc3-signing";
  AWSKMSSignerConfig.region := None |}.

Definition signer (client : KMSClient) : FDC3AWSKMSSigner :=
  {| kmsClient := client; config := signer_config |}.

Definition instrument : value Z :=
  VObj [(js "type", VStr (js "fdc3.instrument"));
        (js "id", VObj [(js "ticker", VStr (js "AAPL"))])].

(** [instrument] with its properties written in another order. *)
Definition instrument' : value Z :=
  VObj [(js "id", VObj [(js "ticker", VStr (js "AAPL"))]);
        (js "type", VStr (js "fdc3.instrument"))].

Definition holdings : value Z :=
  VObj [(js "type", VStr (js "fdc3.portfolio"));
        (js "holdings", VObj [(js "10", VNum 250%Z); (js "9", VNum 100%Z)])].

Definition RSASSA_PSS_SHA_256 : jsstring := js "RSASSA_PSS_SHA_256".

Definition envelope (algorithm : jsstring) : SignedContext.t Z := {|
  SignedContext.context := instrument;
  SignedContext.signature := js "c2lnbmF0dXJl";
  SignedContext.keyId := js "alias/fdc3-signing";
  SignedContext.timestamp := 1700000000000%Z;
  SignedContext.algorithm := algorithm |}.
End Demo.

(** ** The keys of the canonical form *)

(** The keys that [sortKeys] gives to the object it builds: the sorted keys
    of the object, without [__proto__]. *)
Definition sorted_keys {V : Type} (O : list (jsstring * V)) : list jsstring :=
  filter (λ key, key ≠ js "__proto__") (Array_sort O.*1).

(** ** The callers' test for a signed context

    [isSignedContext] of the example applications
    ([examples/cross-app-verification.js], the React hook and the trading
    application) and its variant in the demonstration application.  They
    receive any value; [undefined] is [None]. *)

(** What the callers need of a Number: whether it is truthy (it is not for
    [0], [-0] and [NaN]) and the Number of an integer. *)
Class JSNumber (number : Type) : Type := {
  ToBoolean_number : number → bool;
  Number_of_Z : Z → number }.

Definition result_bind {A B} (r : result A) (f : A → result B) : result B :=
  match r with
  | Ok a => f a
  | Throw error => Throw error
  end.

Section CallerValues.
Context `{JSNumber number}.

Definition ToBoolean (v : option (value number)) : bool :=
  match v with
  | None | Some VNull => false
  | Some (VBool b) => b
  | Some (VNum n) => ToBoolean_number n
  | Some (VStr s) => negb (bool_decide (s = []))
  | Some (VArr _) | Some (VObj _) => true
  end.

Definition typeof (v : option (value number)) : jsstring :=
  match v with
  | None => js "undefined"
  | Some VNull | Some (VArr _) | Some (VObj _) => js "object"
  | Some (VBool _) => js "boolean"
  | Some (VNum _) => js "number"
  | Some (VStr _) => js "string"
  end.

(** The [TypeError] of a property read on [null] or [undefined]. *)
Definition TypeError_read (v : option (value number)) (key : jsstring) : thrown :=
  ErrorObject (js "Cannot read properties of " ++ match v with Some _ => js "null" | None => js "undefined" end
               ++ js " (reading '" ++ key ++ js "')").

(** [v.key], for a key that no prototype defines and that is neither
    [length] nor an index: an own property of an object, [undefined] on any
    other value, a [TypeError] on [null] and [undefined]. *)
Definition GetV (v : option (value number)) (key : jsstring)
  : result (option (value number)) :=
  match v with
  | None | Some VNull => Throw (TypeError_read v key)
  | Some (VObj properties) => Ok (Get properties key)
  | Some _ => Ok None
  end.

(** [a && b]: [a] when it is falsy, else [b]; [b] is not evaluated in the
    first case, so what it would throw is not thrown. *)
Definition and_then (a b : result (option (value number)))
  : result (option (value number)) :=
  match a with
  | Ok v => if ToBoolean v then b else Ok v
  | Throw error => Throw error
  end.

(** [typeof e === t] *)
Definition typeof_is (e : result (option (value number))) (t : jsstring)
  : result (option (value number)) :=
  result_bind e (λ v, Ok (Some (VBool (bool_decide (typeof v = t))))).

(** The object that [sign] returns, as a value: the properties of the
    object literal, in its order. *)
Definition SignedContext_object (signedContext : SignedContext.t number)
  : value number :=
  VObj [(js "context", SignedContext.context signedContext);
        (js "signature", VStr (SignedContext.signature signedContext));
        (js "keyId", VStr (SignedContext.keyId signedContext));
        (js "timestamp", VNum (Number_of_Z (SignedContext.timestamp signedContext)));
        (js "algorithm", VStr (SignedContext.algorithm signedContext))].
End CallerValues.

Module RiskManagementApp.
Section isSignedContext.
Context `{JSNumber number}.

Definition isSignedContext (context : option (value number))
  : result (option (value number)) :=
  and_then
    (and_then
       (and_then
          (and_then
             (and_then (Ok context)
                (typeof_is (GetV context (js "signature")) (js "string")))
             (typeof_is (GetV context (js "keyId")) (js "string")))
          (typeof_is (GetV context (js "timestamp")) (js "number")))
       (GetV context (js "context")))
    (typeof_is
       (result_bind (GetV context (js "context")) (λ c, GetV c (js "type")))
       (js "string")).
End isSignedContext.
End RiskManagementApp.

Module DemoFDC3App.
Section isSignedContext.
Context `{JSNumber number}.

Definition isSignedContext (context : option (value number))
  : result (option (value number)) :=
  and_then
    (and_then
       (and_then
          (and_then
             (and_then (Ok context)
                (typeof_is (GetV context (js "signature")) (js "string")))
             (typeof_is (GetV context (js "keyId")) (js "string")))
          (typeof_is (GetV context (js "timestamp")) (js "number")))
       (GetV context (js "context")))
    (GetV context (js "algorithm")).
End isSignedContext.
End DemoFDC3App.

(** The shape that [RiskManagementApp.isSignedContext] accepts. *)
Definition signed_shape {number : Type} (context : option (value number)) : Prop :=
  ∃ properties signature keyId timestamp payload type_,
    context = Some (VObj properties)
    ∧ Get properties (js "signature") = Some (VStr signature)
    ∧ Get properties (js "keyId") = Some (VStr keyId)
    ∧ Get properties (js "timestamp") = Some (VNum timestamp)
    ∧ Get properties (js "context") = Some (VObj payload)
    ∧ Get payload (js "type") = Some (VStr type_).

(** ** Cases for transport and for the callers *)

Module Cases.
(** Integral Numbers: [0] is the falsy one. *)
Definition numbers : JSNumber Z :=
  {| ToBoolean_number := λ z, negb (z =? 0)%Z; Number_of_Z := λ z, z |}.

(** [Demo.instrument] with one more property, named [__proto__]. *)
Definition tampered_properties : list (jsstring * value Z) :=
  [(js "type", VStr (js "fdc3.instrument"));
   (js "id", VObj [(js "ticker", VStr (js "AAPL"))]);
   (js "__proto__", VObj [(js "isAdmin", VBool true)])].

Definition tampered : value Z := VObj tampered_properties.

(** A signer of another application: the same key service, another key. *)
Definition verifier : FDC3AWSKMSSigner :=
  {| kmsClient := Demo.kms;
     config := {| AWSKMSSignerConfig.keyId := js "dummy-key-for-verification";
                  AWSKMSSignerConfig.region := Some (js "us-east-1") |} |}.

(** A second application that signs with the same key, through a client
    of its own. *)
Definition uploader : FDC3AWSKMSSigner :=
  {| kmsClient :=
       {| send_Sign := send_Sign Demo.kms;
          send_GetPublicKey := send_GetPublicKey Demo.kms_empty |};
     config := {| AWSKMSSignerConfig.keyId := js "alias/fdc3-signing";
                  AWSKMSSignerConfig.region := Some (js "eu-west-1") |} |}.

(** The signature of the demonstration service for [Demo.instrument]. *)
Definition raw : bytes := reverse (utf8_encode (canonicalizeContext Demo.instrument)).

(** An envelope with that signature, as an application receives it. *)
Definition received (payload : value Z) (timestamp : Z) : SignedContext.t Z :=
  {| SignedContext.context := payload;
     SignedContext.signature := toString_base64 raw;
     SignedContext.keyId := js "alias/fdc3-signing";
     SignedContext.timestamp := timestamp;
     SignedContext.algorithm := RSASSA_PKCS1_V1_5_SHA_256 |}.
End Cases.

(** * Properties *)

(** Goals on [/] and [mod] by constants. *)
Ltac by_division := zify; Z.to_euclidean_division_equations; lia.

(** ** The order of [Array.prototype.sort] *)

Lemma string_lt_asym x y : string_lt x y = true → string_lt y x = false.
Proof.
  revert y. induction x as [|a x IH]; intros [|b y]; simpl; try done.
  destruct (N.ltb_spec a b), (N.ltb_spec b a); try done; try lia; auto.
Qed.

Lemma string_lt_connex x y :
  string_lt x y = false → string_lt y x = false → x = y.
Proof.
  revert y. induction x as [|a x IH]; intros [|b y]; simpl; try done.
  destruct (N.ltb_spec a b), (N.ltb_spec b a); try done; try lia.
  intros. f_equal; [lia | auto].
Qed.

Lemma string_lt_cotrans x y z :
  string_lt x z = true → string_lt x y = true ∨ string_lt y z = true.
Proof.
  revert y z.
  induction x as [|a x IH]; intros [|b y] [|c z]; simpl; try done; auto.
  destruct (N.ltb_spec a c), (N.ltb_spec c a), (N.ltb_spec a b),
    (N.ltb_spec b a), (N.ltb_spec b c), (N.ltb_spec c b);
    try done; try lia; auto.
Qed.

#[global] Instance sort_le_total : Total sort_le.
Proof.
  intros x y. unfold sort_le.
  destruct (string_lt y x) eqn:E; [right | by left].
  by apply string_lt_asym.
Qed.

#[global] Instance sort_le_trans : Transitive sort_le.
Proof.
  intros x y z Hxy Hyz. unfold sort_le in *.
  destruct (string_lt z x) eqn:E; [|done].
  destruct (string_lt_cotrans _ y _ E); congruence.
Qed.

#[global] Instance sort_le_antisym : AntiSymm (=) sort_le.
Proof. intros x y ??. by apply string_lt_connex. Qed.

Lemma Array_sort_Permutation l : Array_sort l ≡ₚ l.
Proof. apply merge_sort_Permutation. Qed.

Lemma Array_sort_Sorted l : Sorted sort_le (Array_sort l).
Proof. apply (Sorted_merge_sort sort_le). Qed.

(** Sorting forgets the order in which the keys were given. *)
Lemma Array_sort_unique l1 l2 : l1 ≡ₚ l2 → Array_sort l1 = Array_sort l2.
Proof.
  intros E. apply (Sorted_unique sort_le); auto using Array_sort_Sorted.
  by rewrite !Array_sort_Permutation.
Qed.

(** ** Objects *)

Section ObjectFacts.
Context {V : Type}.
Implicit Types O : list (jsstring * V).

Lemma OwnPropertyKeys_Permutation O : OwnPropertyKeys O ≡ₚ O.*1.
Proof.
  unfold OwnPropertyKeys. rewrite merge_sort_Permutation.
  rewrite <-(filter_app_complement (λ k, is_Some (array_index k)) (O.*1)) at 3.
  f_equiv. apply reflexive_eq, list_filter_iff.
  intros k. by rewrite eq_None_not_Some.
Qed.

Lemma Get_Some_elem_of O key v :
  NoDup O.*1 → Get O key = Some v ↔ (key, v) ∈ O.
Proof.
  induction O as [|[k w] O IH]; simpl; intros Hnd.
  - split; [done | by intros ?%elem_of_nil].
  - apply NoDup_cons in Hnd as [Hk Hnd]. rewrite elem_of_cons, <-(IH Hnd).
    case_decide as E; [subst k|].
    + split; [intros [= ->]; by left|].
      intros [[= ->]|Hin]; [done|].
      apply (IH Hnd) in Hin. destruct Hk.
      apply list_elem_of_fmap. by exists (key, v).
    + split; [by right|]. intros [[= ??]|?]; [done | done].
Qed.

(** Reading a property does not depend on the order of creation. *)
Lemma Get_Permutation O O' key :
  NoDup O.*1 → O ≡ₚ O' → Get O key = Get O' key.
Proof.
  intros Hnd E. assert (NoDup O'.*1) by (by rewrite <-E).
  apply option_eq. intros v. rewrite !Get_Some_elem_of by done. by rewrite E.
Qed.
End ObjectFacts.

(** ** [sortKeys] does not see the order of creation *)

Section Canonical.
Context `{JSONNumber number}.
Implicit Types o : value number.

Lemma assign_sorted_ext (read read' : list (jsstring * value number)) keys acc :
  (∀ key, Get read key = Get read' key) →
  foldl (assign_sorted read) acc keys = foldl (assign_sorted read') acc keys.
Proof.
  intros E. revert acc. induction keys as [|k keys IH]; intros acc; simpl; [done|].
  unfold assign_sorted at 2 4. by rewrite E, IH.
Qed.

Lemma sortKeys_reordered o o' :
  distinct_keys o = true → reordered o o' → sortKeys o = sortKeys o'.
Proof.
  intros Hd%Is_true_true_2. revert o' Hd.
  induction o as [| | | |elements IH|properties IH] using value_ind;
    intros o' Hd Hr; inv Hr; try done.
  - simpl. f_equal. simpl in Hd. apply forallb_True in Hd.
    match goal with E : Forall2 reordered _ _ |- _ =>
      induction E as [|x y l l' Hxy ? IHl] end; [done|].
    apply Forall_cons in IH as [IHx IH]. apply Forall_cons in Hd as [Hx Hd].
    simpl. f_equal; [by apply IHx | by apply IHl].
  - simpl in Hd. apply andb_True in Hd as [Hnd Hd].
    apply bool_decide_unpack in Hnd. apply forallb_True in Hd.
    match goal with E : Forall2 _ properties ?r |- _ =>
      rename r into renewed, E into Hf end.
    match goal with E : renewed ≡ₚ ?r |- _ =>
      rename E into Hp, r into properties' end.
    assert (map (λ p, (p.1, sortKeys p.2)) properties
            = map (λ p, (p.1, sortKeys p.2)) renewed) as Eread.
    { clear Hp Hnd. induction Hf as [|p q l l' [Hk Hv] ? IHl]; [done|].
      apply Forall_cons in IH as [IHp IH]. apply Forall_cons in Hd as [Hp Hd].
      simpl. f_equal; [|by apply IHl].
      f_equal; [done|]. by apply IHp. }
    assert (properties.*1 = renewed.*1) as Ekeys.
    { clear -Hf. induction Hf as [|p q l l' [Hk Hv] ? IHl]; [done|].
      simpl. by f_equal. }
    simpl. f_equal. rewrite Eread.
    rewrite (Array_sort_unique (Object_keys properties) (Object_keys properties')).
    2:{ unfold Object_keys. rewrite !OwnPropertyKeys_Permutation, Ekeys.
        by rewrite Hp. }
    apply assign_sorted_ext. intros key. apply Get_Permutation.
    + rewrite <-list_fmap_compose. by rewrite Ekeys in Hnd.
    + by apply fmap_Permutation.
Qed.
End Canonical.

(** ** [sign] and [verify], case by case *)

Lemma starts_with_refl s : starts_with s s = true.
Proof. induction s as [|c s IH]; simpl; [done|]. by rewrite N.eqb_refl. Qed.

Lemma includes_app_r prefix s : includes (prefix ++ s) s = true.
Proof.
  induction prefix as [|c prefix IH]; simpl.
  - destruct s; simpl; [done|]. by rewrite N.eqb_refl, starts_with_refl.
  - rewrite IH. apply orb_true_r.
Qed.

Section Engine.
Context `{JSONNumber number} `{NodeRuntime}.
Variable this : FDC3AWSKMSSigner.
Implicit Types (context : value number) (signedContext : SignedContext.t number).

Lemma sign_unfold context algorithm log :
  sign this context algorithm log =
  let algorithm' := default RSASSA_PKCS1_V1_5_SHA_256 algorithm in
  let request := sign_request this context algorithm' in
  match send_Sign (kmsClient this) request with
  | Ok {| SignCommand.Signature := Some raw |} =>
      (Ok (signed this context algorithm' raw (Date_now (log ++ [Call_Sign request]))),
       (log ++ [Call_Sign request]) ++ [Call_Date_now])
  | Ok {| SignCommand.Signature := None |} =>
      (Throw (sign_failure (js "KMS signing failed: No signature returned")),
       log ++ [Call_Sign request])
  | Throw error =>
      (Throw (rethrown error), log ++ [Call_Sign request])
  end.
Proof.
  unfold sign, try_catch, sign_body, mbind, io_bind, await, reading, local, throw,
    sign_request, rethrown. simpl.
  destruct (send_Sign _ _) as [[[raw|]]|[message|text|raised]]; reflexivity.
Qed.

Lemma verify_unfold signedContext log :
  verify this signedContext log =
  let request := key_request signedContext in
  let message := Buffer_from_utf8 (canonicalizeContext (SignedContext.context signedContext)) in
  let signature := Buffer_from_base64 (SignedContext.signature signedContext) in
  match send_GetPublicKey (kmsClient this) request with
  | Ok {| GetPublicKeyCommand.PublicKey := Some publicKey |} =>
      match getNodeAlgorithm (SignedContext.algorithm signedContext) with
      | Ok nodeAlgorithm =>
          let c := Call_Verify nodeAlgorithm message (derToPem publicKey) signature in
          match Verify_verify nodeAlgorithm message (derToPem publicKey) signature with
          | Ok true =>
              (Ok (accepted (SignedContext.context signedContext)),
               (log ++ [Call_GetPublicKey request]) ++ [c])
          | Ok false =>
              (Ok (rejected (js "Signature verification failed")),
               (log ++ [Call_GetPublicKey request]) ++ [c])
          | Throw error =>
              (caught error, (log ++ [Call_GetPublicKey request]) ++ [c])
          end
      | Throw error => (caught error, log ++ [Call_GetPublicKey request])
      end
  | Ok {| GetPublicKeyCommand.PublicKey := None |} =>
      (Ok (rejected (js "Could not retrieve public key from KMS")),
       log ++ [Call_GetPublicKey request])
  | Throw error => (caught error, log ++ [Call_GetPublicKey request])
  end.
Proof.
  unfold verify, try_catch, verify_body, mbind, io_bind, await, local, key_request,
    caught.
  cbv zeta.
  destruct (send_GetPublicKey _ _) as [[[publicKey|]]|error];
    [|reflexivity|by destruct error].
  cbn [GetPublicKeyCommand.PublicKey].
  destruct (getNodeAlgorithm _) as [nodeAlgorithm|error]; [|by destruct error].
  destruct (Verify_verify _ _ _ _) as [[|]|error];
    [reflexivity|reflexivity|by destruct error].
Qed.

(** What the body of [verify] throws, and at which step. *)
Lemma verify_body_throws signedContext log error :
  (verify_body this signedContext log).1 = Throw error ↔
  step_throws this signedContext error.
Proof.
  unfold step_throws, verify_body, mbind, io_bind, await, local, key_request.
  cbv zeta.
  destruct (send_GetPublicKey _ _) as [[[publicKey|]]|e];
    cbn [GetPublicKeyCommand.PublicKey].
  - destruct (getNodeAlgorithm _) as [nodeAlgorithm|e].
    + destruct (Verify_verify _ _ _ _) as [b|e] eqn:E.
      * split; [done|].
        intros [?|(? & [= <-] & [?|(? & [= <-] & E')])]; [done..|].
        rewrite E in E'. done.
      * split.
        -- intros [= ->]. right. eexists; split; [done|]. right. by eexists.
        -- intros [?|(? & [= <-] & [?|(? & [= <-] & E')])]; [done..|].
           rewrite E in E'. by injection E' as ->.
    + split.
      * intros [= ->]. right. eexists; split; [done|]. by left.
      * intros [?|(? & [= <-] & [[= ->]|(? & ? & ?)])]; done.
  - split; [done|]. intros [?|(? & ? & ?)]; done.
  - split; [intros [= ->]; by left|].
    intros [[= ->]|(? & ? & ?)]; done.
Qed.

(** When a step throws, [verify] ends as its handler does. *)
Lemma verify_caught signedContext log error :
  step_throws this signedContext error →
  (verify this signedContext log).1 = caught error.
Proof.
  intros Hstep%(verify_body_throws _ log). revert Hstep.
  unfold verify, try_catch. destruct (verify_body this signedContext log) as [[?|e] ?].
  - done.
  - cbn [fst]. intros [= ->]. unfold caught, mbind, io_bind, local.
    by destruct (describe error).
Qed.

(** When no step throws, [verify] returns what its body returns: the
    verdict of crypto, or the rejection for want of a key. *)
Lemma verify_quiet signedContext log :
  (∀ error, ¬ step_throws this signedContext error) →
  ∃ outcome,
    (verify this signedContext log).1 = Ok outcome
    ∧ (outcome = accepted (SignedContext.context signedContext)
       ∨ outcome = rejected (js "Signature verification failed")
       ∨ outcome = rejected (js "Could not retrieve public key from KMS")).
Proof.
  intros Hquiet. rewrite verify_unfold. cbv zeta. unfold step_throws in Hquiet.
  destruct (send_GetPublicKey _ _) as [[[publicKey|]]|error] eqn:Ekey.
  - destruct (getNodeAlgorithm _) as [nodeAlgorithm|error] eqn:Ealg.
    + destruct (Verify_verify _ _ _ _) as [[|]|error] eqn:Everify; [by eauto..|].
      destruct (Hquiet error). right. eexists. split; [done|]. right. by eexists.
    + destruct (Hquiet error). right. eexists. split; [done|]. by left.
  - by eauto.
  - destruct (Hquiet error). by left.
Qed.

Lemma step_throws_or_not signedContext :
  (∃ error, step_throws this signedContext error)
  ∨ (∀ error, ¬ step_throws this signedContext error).
Proof.
  pose proof (verify_body_throws signedContext []) as Hbody.
  destruct (verify_body this signedContext []) as [[outcome|e] log'].
  - right. intros error Hstep%Hbody. done.
  - left. exists e. by apply Hbody.
Qed.

(** The outcomes of [verify]: it is fulfilled, or a step has thrown a value
    of which no text can be made and [verify] throws what the conversion of
    that value throws. *)
Lemma verify_outcomes signedContext log :
  (∃ outcome,
     (verify this signedContext log).1 = Ok outcome
     ∧ (outcome = accepted (SignedContext.context signedContext)
        ∨ ∃ detail, outcome = rejected detail))
  ∨ ∃ raised,
      step_throws this signedContext (Unprintable raised)
      ∧ (verify this signedContext log).1 = Throw raised.
Proof.
  destruct (step_throws_or_not signedContext) as [[error Hstep]|Hquiet].
  - pose proof (verify_caught signedContext log error Hstep) as E.
    destruct error as [message|text|raised]; cbn in E;
      [left; by eauto 6..|right; by eauto].
  - destruct (verify_quiet signedContext log Hquiet)
      as (outcome & E & [->|[->| ->]]); left; by eauto.
Qed.
End Engine.

(** ** The engine *)

Section EngineProperties.
Context `{JSONNumber number} `{NodeRuntime}.
Variable this : FDC3AWSKMSSigner.
Implicit Types (payload : value number) (signedContext : SignedContext.t number).




(** C8 — The shape of a verification result: on every path [verify] is
    fulfilled with an outcome whose [context] is present, and is the
    envelope's, exactly when [isValid] is true, and whose [error] is present
    exactly when [isValid] is false.  The one run without an outcome is the
    run in which a step has thrown a value of which no text can be made. *)
Theorem verify_outcome_shape signedContext log :
  (∃ outcome,
     (verify this signedContext log).1 = Ok outcome
     ∧ (VerificationResult.isValid outcome = true ↔
          VerificationResult.context outcome
            = Some (SignedContext.context signedContext))
     ∧ (VerificationResult.isValid outcome = true ↔
          is_Some (VerificationResult.context outcome))
     ∧ (VerificationResult.isValid outcome = false ↔
          is_Some (VerificationResult.error outcome)))
  ∨ ∃ raised,
      step_throws this signedContext (Unprintable raised)
      ∧ (verify this signedContext log).1 = Throw raised.
Proof.
  destruct (verify_outcomes this signedContext log)
    as [(outcome & E & [->|[detail ->]])|Hthrows]; [| |by right];
    left; eexists; (split; [exact E|]); simpl.
  - repeat split; by eauto.
  - repeat split; try done; try (by eauto); by intros [? ?].
Qed.

(** C5 — Unavailable public key: when the key service answers without key
    material, [verify] is fulfilled with [isValid] false and the error
    [Could not retrieve public key from KMS], whatever the payload, the
    signature, the algorithm and the runtime; the only call made is the
    request for the key. *)
Theorem verify_public_key_unavailable signedContext log :
  send_GetPublicKey (kmsClient this) (key_request signedContext)
    = Ok {| GetPublicKeyCommand.PublicKey := None |} →
  verify this signedContext log
    = (Ok (rejected (js "Could not retrieve public key from KMS")),
       log ++ [Call_GetPublicKey (key_request signedContext)]).
Proof. intros E. rewrite verify_unfold. cbv zeta. by rewrite E. Qed.
Lemma getNodeAlgorithm_supported algorithm :
  (∃ nodeAlgorithm, getNodeAlgorithm algorithm = Ok nodeAlgorithm) ↔ supported algorithm.
Proof.
  unfold getNodeAlgorithm, supported. repeat case_decide.
  - split; [by left | by eexists].
  - split; [by right | by eexists].
  - split; [by intros [? ?] | by intros [?|?]].
Qed.

Lemma getNodeAlgorithm_unsupported algorithm :
  ¬ supported algorithm →
  getNodeAlgorithm algorithm
    = Throw (ErrorObject (js "Unsupported algorithm: " ++ algorithm)).
Proof.
  unfold getNodeAlgorithm, supported. intros Hn.
  repeat case_decide; try done; destruct Hn; auto.
Qed.

(** C4 (amended) — Unsupported algorithm: the table maps exactly the two
    identifiers [RSASSA_PKCS1_V1_5_SHA_256] and [ECDSA_SHA_256]; for an
    envelope with any other algorithm [verify] is fulfilled with [isValid]
    false, and when the key service has supplied a public key its [error]
    is [Verification error: Unsupported algorithm: ] followed by the
    algorithm.  The one run without an outcome is the run in which the key
    fetch has thrown a value of which no text can be made. *)
Theorem verify_unsupported_algorithm signedContext log :
  ¬ supported (SignedContext.algorithm signedContext) →
  (∀ algorithm,
     (∃ nodeAlgorithm, getNodeAlgorithm algorithm = Ok nodeAlgorithm)
     ↔ supported algorithm)
  ∧ ((∃ outcome,
        (verify this signedContext log).1 = Ok outcome
        ∧ VerificationResult.isValid outcome = false
        ∧ ∀ publicKey,
            send_GetPublicKey (kmsClient this) (key_request signedContext)
              = Ok {| GetPublicKeyCommand.PublicKey := Some publicKey |} →
            outcome = rejected (js "Verification error: Unsupported algorithm: "
                                ++ SignedContext.algorithm signedContext)
            ∧ rejects_naming outcome (SignedContext.algorithm signedContext))
     ∨ ∃ raised,
         send_GetPublicKey (kmsClient this) (key_request signedContext)
           = Throw (Unprintable raised)
         ∧ (verify this signedContext log).1 = Throw raised).
Proof.
  intros Hn. split; [apply getNodeAlgorithm_supported|].
  rewrite verify_unfold. cbv zeta.
  rewrite (getNodeAlgorithm_unsupported _ Hn).
  destruct (send_GetPublicKey _ _) as [[[publicKey|]]|[message|text|raised]];
    [| | | |right; by eauto];
    left; eexists; (split; [reflexivity|]); (split; [done|]); intros pk [= <-].
  split; [done|]. split; [done|]. eexists. split; [done|].
  rewrite (assoc_L (++)). apply includes_app_r.
Qed.


(** C10 — [sign] does not consult the algorithm table: for every algorithm,
    in the table or not, the request sent to the key service carries it, and
    when the service returns a signature [sign] is fulfilled with an envelope
    whose [algorithm] is that very value; [sign] throws only when the service
    throws or returns no signature. *)
Theorem sign_algorithm_unchecked payload (algorithm : jsstring) log :
  let request := sign_request this payload algorithm in
  SignCommand.SigningAlgorithm request = algorithm
  ∧ (∃ calls, (sign this payload (Some algorithm) log).2
               = log ++ Call_Sign request :: calls)
  ∧ (∀ raw,
       send_Sign (kmsClient this) request
         = Ok {| SignCommand.Signature := Some raw |} →
       ∃ envelope,
         (sign this payload (Some algorithm) log).1 = Ok envelope
         ∧ SignedContext.algorithm envelope = algorithm)
  ∧ (∀ error,
       (sign this payload (Some algorithm) log).1 = Throw error →
       (∃ cause, send_Sign (kmsClient this) request = Throw cause
                 ∧ match cause with
                   | ErrorObject text | OtherValue text => error = sign_failure text
                   | Unprintable raised => error = raised
                   end)
       ∨ (send_Sign (kmsClient this) request
            = Ok {| SignCommand.Signature := None |}
          ∧ error = sign_failure (js "KMS signing failed: No signature returned"))).
Proof.
  intros request. split; [done|].
  rewrite sign_unfold. cbv zeta. cbn [default]. fold request.
  destruct (send_Sign _ _) as [[[raw|]]|e]; simpl.
  - split; [by rewrite <-(assoc_L (++)); eexists|].
    split; [intros ? [= <-]; by eexists | done].
  - split; [by exists []|]. split; [done|]. intros ? [= <-]. by right.
  - split; [by exists []|]. split; [done|]. intros ? [= <-]. left.
    eexists. split; [done|]. by destruct e.
Qed.
End EngineProperties.

(** ** [derToPem] *)

Lemma base64_char_not_terminator n : is_line_terminator (base64_char n) = false.
Proof.
  unfold is_line_terminator, base64_char.
  rewrite !orb_false_iff, !N.eqb_neq.
  repeat match goal with |- context [?a <? ?b] => destruct (N.ltb_spec a b) end;
    repeat match goal with |- context [?a =? ?b] => destruct (N.eqb_spec a b) end;
    lia.
Qed.

Lemma list_ind3 {A} (P : list A → Prop) :
  P [] → (∀ x, P [x]) → (∀ x y, P [x; y]) →
  (∀ x y z l, P l → P (x :: y :: z :: l)) → ∀ l, P l.
Proof.
  intros H0 H1 H2 H3 l.
  cut (P l ∧ (∀ x, P (x :: l)) ∧ (∀ x y, P (x :: y :: l))); [by intros [? _]|].
  induction l as [|a l (IH0 & IH1 & IH2)]; auto.
Qed.

Lemma toString_base64_no_terminator buffer :
  Forall (λ c, is_line_terminator c = false) (toString_base64 buffer).
Proof.
  induction buffer as [|x|x y|x y z l IH] using list_ind3; simpl;
    repeat (apply Forall_cons; split); auto using base64_char_not_terminator.
Qed.

Lemma flush_concat current : concat (flush current) = current.
Proof. destruct current; simpl; [done|]. by rewrite (right_id_L [] (++)). Qed.

(** The matches of a text without line terminators are the text, folded
    at 64 characters. *)
Lemma matches_dot_1_64_folded s current :
  Forall (λ c, is_line_terminator c = false) s →
  (length current < 64)%nat →
  concat (matches_dot_1_64 current s) = current ++ s
  ∧ Forall (λ l, (0 < length l ≤ 64)%nat) (matches_dot_1_64 current s)
  ∧ folded 64 (matches_dot_1_64 current s).
Proof.
  intros Hs. revert current.
  induction Hs as [|c s Hc Hs IH]; intros current Hlen; cbn [matches_dot_1_64].
  - destruct current as [|c current]; cbn [flush].
    + by repeat split.
    + split; [done|].
      cbn [length] in *. split; [apply Forall_singleton|]; cbn [folded length]; lia.
  - rewrite Hc. cbv zeta.
    destruct (Nat.eqb_spec (length (current ++ [c])) 64) as [E|E].
    + destruct (IH [] ltac:(cbn [length]; lia)) as (Hcat & Hall & Hfold).
      split; [cbn [concat]; rewrite Hcat; by rewrite <-(assoc_L (++))|].
      split; [apply Forall_cons; split; [lia|done]|].
      destruct (matches_dot_1_64 [] s) eqn:Em; [cbn [folded]; lia|]. by split.
    + rewrite length_app in E. cbn [length] in E.
      destruct (IH (current ++ [c]) ltac:(rewrite length_app; cbn [length]; lia))
        as (Hcat & Hall & Hfold).
      split; [rewrite Hcat; by rewrite <-(assoc_L (++))|]. done.
Qed.

Lemma join_nonempty sep (lines : list jsstring) :
  lines ≠ [] → Forall (λ l, (0 < length l)%nat) lines → join sep lines ≠ [].
Proof.
  destruct lines as [|[|c l] rest]; [done| |].
  - intros _ [Hl _]%Forall_cons. simpl in Hl. lia.
  - intros _ _. by destruct rest.
Qed.

(** C9 — DER to PEM: [derToPem] returns the header line, the base64 text of
    the key folded into lines of 64 characters (the last one shorter when the
    text does not fill it) and the footer line; the lines put together are
    the base64 encoding of the bytes, and none contains a line break.  The
    function is total. *)
Theorem derToPem_folds_base64 (derBuffer : bytes) :
  ∃ lines,
    derToPem derBuffer
      = pem_header ++ [10] ++ join [10] lines ++ [10] ++ pem_footer
    ∧ concat lines = toString_base64 derBuffer
    ∧ Forall (λ l, (length l ≤ 64)%nat) lines
    ∧ folded 64 lines
    ∧ Forall (Forall (λ c, is_line_terminator c = false)) lines.
Proof.
  exists (matches_dot_1_64 [] (toString_base64 derBuffer)).
  destruct (matches_dot_1_64_folded (toString_base64 derBuffer) []
              (toString_base64_no_terminator derBuffer) ltac:(cbn [length]; lia))
    as (Hcat & Hall & Hfold).
  cbn [app] in Hcat.
  split; [|split; [done|split; [|split; [done|]]]].
  - unfold derToPem, String_match. cbv zeta.
    destruct (matches_dot_1_64 [] (toString_base64 derBuffer)) as [|l rest] eqn:E.
    + cbn [concat] in Hcat. by rewrite <-Hcat.
    + cbn [fmap option_fmap option_map or_else].
      destruct (join [10] (l :: rest)) eqn:Ej; [|done].
      exfalso. revert Ej. apply join_nonempty; [done|].
      eapply Forall_impl; [exact Hall|]. simpl. lia.
  - eapply Forall_impl; [exact Hall|]. simpl. lia.
  - rewrite <-Forall_concat, Hcat. apply toString_base64_no_terminator.
Qed.

(** ** The canonical text *)

Section CanonicalText.
Context `{JSONNumber number} `{NodeRuntime}.
Implicit Types o : value number.

(** C2 — Order invariance of the canonical form: two payloads with the same
    keys and values, whose objects (at any depth) had their properties
    created in different orders, have the same canonical text and so the
    same canonical bytes. *)
Theorem canonicalize_order_invariant o o' :
  distinct_keys o = true →
  reordered o o' →
  canonicalizeContext o = canonicalizeContext o'
  ∧ Buffer_from_utf8 (canonicalizeContext o)
    = Buffer_from_utf8 (canonicalizeContext o').
Proof.
  intros Hd Hr. unfold canonicalizeContext.
  by rewrite (sortKeys_reordered o o' Hd Hr).
Qed.

(** Arrays keep their elements, in order; scalars and [null] are returned
    as they are. *)
Lemma sortKeys_array (elements : list (value number)) :
  sortKeys (VArr elements) = VArr (sortKeys <$> elements)
  ∧ ∀ (i : nat), (sortKeys <$> elements) !! i = sortKeys <$> (elements !! i).
Proof. split; [done|]. intros i. apply list_lookup_fmap. Qed.

Lemma sortKeys_scalar o :
  match o with VArr _ | VObj _ => True | _ => sortKeys o = o end.
Proof. by destruct o. Qed.

(** The loop of [sortKeys] as the source writes it: for every key of
    [Object.keys(obj).sort()], in order, [sorted[key] = sortKeys(obj[key])]. *)
Lemma sortKeys_object (properties : list (jsstring * value number)) :
  sortKeys (VObj properties)
  = VObj (foldl (λ sorted key,
                   match sortKeys <$> Get properties key with
                   | Some v => OrdinarySet sorted key v
                   | None => sorted
                   end)
            [] (Array_sort (Object_keys properties))).
Proof.
  cbn [sortKeys]. f_equal. generalize (@nil (jsstring * value number)).
  induction (Array_sort (Object_keys properties)) as [|key keys IH];
    intros acc; [done|].
  cbn [foldl]. rewrite IH. f_equal. unfold assign_sorted.
  clear. induction properties as [|[k v] properties IH]; [done|].
  cbn [map Get fst snd]. case_decide; [done|]. exact IH.
Qed.
End CanonicalText.

(** *** Objects without array indices *)

Section PlainKeys.
Context {number : Type}.
Implicit Types (o : value number) (O read : list (jsstring * value number)).

Lemma CreateDataProperty_fresh O key (v : value number) :
  key ∉ O.*1 → CreateDataProperty O key v = O ++ [(key, v)].
Proof.
  induction O as [|[k w] O IH]; simpl; [done|].
  intros Hin. apply not_elem_of_cons in Hin as [??].
  case_decide; [congruence|]. by rewrite IH.
Qed.

Lemma entries_keys read keys :
  Forall (λ key, is_Some (Get read key)) keys → (entries read keys).*1 = keys.
Proof.
  induction 1 as [|key keys [v E] ? IH]; [done|].
  unfold entries in *. cbn [omap list_omap]. rewrite E.
  cbn [fmap option_fmap option_map list_fmap fst]. by rewrite IH.
Qed.

Lemma entries_subseteq read keys : (entries read keys).*1 ⊆ keys.
Proof.
  induction keys as [|key keys IH]; [done|].
  unfold entries in *. cbn [omap list_omap].
  destruct (Get read key); cbn [fmap option_fmap option_map list_fmap fst].
  - by apply list_subseteq_skip.
  - by apply list_subseteq_cons.
Qed.

Lemma foldl_assign_sorted read acc keys :
  NoDup (acc.*1 ++ keys) →
  js "__proto__" ∉ keys →
  foldl (assign_sorted read) acc keys = acc ++ entries read keys.
Proof.
  revert acc. induction keys as [|key keys IH]; intros acc Hnd Hproto.
  - unfold entries. cbn. by rewrite (right_id_L [] (++)).
  - apply not_elem_of_cons in Hproto as [Hk Hproto].
    apply NoDup_app in Hnd as (Hacc & Hdisj & [Hkey Hkeys]%NoDup_cons).
    cbn [foldl]. unfold assign_sorted at 2, entries. cbn [omap list_omap].
    destruct (Get read key) as [v|] eqn:E; cbn [fmap option_fmap option_map].
    + unfold OrdinarySet. case_decide; [congruence|].
      rewrite CreateDataProperty_fresh.
      2:{ intros Hin. apply (Hdisj _ Hin). by left. }
      rewrite IH; [by rewrite <-(assoc_L (++))| |done].
      rewrite fmap_app. cbn [fmap list_fmap fst]. rewrite <-(assoc_L (++)).
      apply NoDup_app. split; [done|]. split; [|by apply NoDup_cons].
      intros x Hx. by apply Hdisj.
    + apply IH; [|done]. apply NoDup_app. split; [done|]. split; [|done].
      intros x Hx Hin. apply (Hdisj _ Hx). by right.
Qed.

Lemma OwnPropertyKeys_plain O :
  Forall (λ key, array_index key = None) O.*1 → OwnPropertyKeys O = O.*1.
Proof.
  intros Hall. unfold OwnPropertyKeys.
  assert (filter (λ k, is_Some (array_index k)) O.*1 = []
          ∧ filter (λ k, array_index k = None) O.*1 = O.*1) as [-> ->]; [|done].
  induction Hall as [|k l Hk ? [IH1 IH2]]; [done|]. split.
  - rewrite filter_cons_False; [done|]. rewrite Hk. by intros [? ?].
  - rewrite filter_cons_True by done. by rewrite IH2.
Qed.

Lemma Sorted_ascending keys :
  Sorted sort_le keys → NoDup keys → ascending keys = true.
Proof.
  induction 1 as [|k keys Hs IH Hhd]; [done|].
  intros [Hk Hnd]%NoDup_cons. specialize (IH Hnd).
  destruct Hhd as [|k' keys Hle]; [done|].
  change (ascending (k :: k' :: keys))
    with (string_lt k k' && ascending (k' :: keys)).
  rewrite IH, andb_true_r.
  destruct (string_lt k k') eqn:E; [done|].
  destruct Hk. rewrite (string_lt_connex k k' E Hle). by left.
Qed.

Lemma Get_fmap_sortKeys O key :
  Get (map (λ p, (p.1, sortKeys p.2)) O) key = sortKeys <$> Get O key.
Proof.
  induction O as [|[k v] O IH]; simpl; [done|]. by case_decide.
Qed.

Lemma Get_is_Some O key : key ∈ O.*1 → is_Some (Get O key).
Proof.
  induction O as [|[k v] O IH]; simpl; [by intros ?%elem_of_nil|].
  intros [->|Hin]%elem_of_cons; case_decide; by eauto.
Qed.

Lemma Get_elem_of O key (v : value number) : Get O key = Some v → (key, v) ∈ O.
Proof.
  induction O as [|[k w] O IH]; simpl; [done|].
  case_decide; [intros [= ->]; subst; by left|]. intros ?. right. by apply IH.
Qed.

(** On objects whose keys are neither array indices nor [__proto__] the
    rewriting keeps every key and enumerates the keys in ascending order, at
    every depth. *)
Lemma sortKeys_plain_keys o :
  distinct_keys o = true → plain_keys o = true →
  keys_ascending (sortKeys o) = true
  ∧ match o, sortKeys o with
    | VObj properties, VObj sorted =>
        sorted.*1 = Array_sort properties.*1
        ∧ ∀ key, Get sorted key = sortKeys <$> Get properties key
    | VObj _, _ => False
    | _, _ => True
    end.
Proof.
  intros Hd%Is_true_true_2 Hp%Is_true_true_2. revert Hd Hp.
  induction o as [| | | |elements IH|properties IH] using value_ind;
    intros Hd Hp; try done.
  - split; [|done]. cbn [sortKeys keys_ascending]. apply Is_true_true_1.
    cbn [distinct_keys plain_keys] in Hd, Hp.
    apply forallb_True in Hd, Hp. apply forallb_True, Forall_fmap.
    revert Hd Hp. induction IH as [|x l Hx ? IHl]; [done|].
    intros [??]%Forall_cons [??]%Forall_cons. apply Forall_cons. split; [|by auto].
    cbn. apply Is_true_true_2. by apply Hx.
  - cbn [distinct_keys plain_keys] in Hd, Hp.
    apply andb_True in Hd as [Hnd%bool_decide_unpack Hd].
    apply forallb_True in Hd, Hp.
    assert (Forall (λ key, array_index key = None) properties.*1) as Hidx.
    { apply Forall_fmap. eapply Forall_impl; [exact Hp|]. intros p Hq. cbn.
      apply andb_True in Hq as [[Hq _]%andb_True _]. by apply bool_decide_unpack in Hq. }
    assert (js "__proto__" ∉ properties.*1) as Hproto.
    { intros (p & E & Hin)%list_elem_of_fmap. rewrite Forall_forall in Hp.
      specialize (Hp p Hin). apply andb_True in Hp as [[_ Hq]%andb_True _].
      by apply bool_decide_unpack in Hq. }
    set (read := map (λ p, (p.1, sortKeys p.2)) properties).
    set (keys := Array_sort (Object_keys properties)).
    assert (keys = Array_sort properties.*1) as Ekeys.
    { apply Array_sort_unique, OwnPropertyKeys_Permutation. }
    assert (keys ≡ₚ properties.*1) as Hperm.
    { rewrite Ekeys. apply Array_sort_Permutation. }
    assert (sortKeys (VObj properties) = VObj (entries read keys)) as ->.
    { cbn [sortKeys]. fold read keys. f_equal.
      rewrite foldl_assign_sorted; [done| |by rewrite Hperm].
      cbn. by rewrite Hperm. }
    assert (Forall (λ key, is_Some (Get read key)) keys) as Hsome.
    { apply Forall_forall. intros key Hin. unfold read.
      rewrite Get_fmap_sortKeys. apply fmap_is_Some, Get_is_Some.
      by rewrite <-Hperm. }
    assert ((entries read keys).*1 = keys) as Eent by by apply entries_keys.
    split; [|split; [by rewrite Eent|]].
    + cbn [keys_ascending]. apply andb_true_iff. split.
      * rewrite OwnPropertyKeys_plain; rewrite Eent.
        -- apply Sorted_ascending; [apply Array_sort_Sorted|by rewrite Hperm].
        -- by rewrite Hperm.
      * apply Is_true_true_1, forallb_True, Forall_forall. intros [k v] Hin.
        cbn. apply Is_true_true_2.
        unfold entries in Hin. apply list_elem_of_omap in Hin as (k' & _ & Hk).
        destruct (Get read k') as [v'|] eqn:E; [|done]. injection Hk as <- <-.
        unfold read in E. rewrite Get_fmap_sortKeys in E.
        destruct (Get properties k') as [w|] eqn:Ew; [|done]. injection E as <-.
        apply Get_elem_of in Ew. rewrite Forall_forall in IH, Hd, Hp.
        apply (IH _ Ew); [by apply (Hd _ Ew)|].
        specialize (Hp _ Ew). by apply andb_True in Hp as [_ ?].
    + intros key. destruct (decide (key ∈ keys)) as [Hin|Hin].
      * transitivity (Get read key); [|apply Get_fmap_sortKeys].
        apply option_eq. intros v.
        rewrite !Get_Some_elem_of; [| |by rewrite Eent, Hperm].
        2:{ unfold read. rewrite <-list_fmap_compose. exact Hnd. }
        unfold entries. rewrite list_elem_of_omap. split.
        -- intros (k' & _ & Hk). destruct (Get read k') eqn:E; [|done].
           injection Hk as <- <-. by apply Get_elem_of.
        -- intros Hv. exists key. split; [done|].
           apply Get_Some_elem_of in Hv; [by rewrite Hv|].
           unfold read. rewrite <-list_fmap_compose. exact Hnd.
      * assert (Get (entries read keys) key = None) as ->.
        { apply eq_None_not_Some. intros [v Hv]. apply Get_elem_of in Hv.
          apply Hin. rewrite <-Eent. apply list_elem_of_fmap. by exists (key, v). }
        assert (Get properties key = None) as ->; [|done].
        apply eq_None_not_Some. intros [v Hv]. apply Get_elem_of in Hv.
        apply Hin. rewrite Hperm. apply list_elem_of_fmap. by exists (key, v).
Qed.
End PlainKeys.

(** ** Base64 *)

Lemma base64_value_char n : n < 64 → base64_value (base64_char n) = Some n.
Proof.
  intros Hn. unfold base64_value, base64_char.
  repeat match goal with
         | |- context [?a <? ?b] => destruct (N.ltb_spec a b)
         | |- context [?a <=? ?b] => destruct (N.leb_spec a b)
         | |- context [?a =? ?b] => destruct (N.eqb_spec a b)
         end; cbn [andb]; try (f_equal; lia); try lia.
Qed.

Lemma to_byte_eq n x : n = Byte.to_N x → to_byte n = x.
Proof. intros ->. unfold to_byte. by rewrite Byte.of_to_N. Qed.

(** Decoding what [toString_base64] wrote gives the bytes back: the
    reference decoder is an inverse of the encoder of the model. *)
Lemma base64_decode_toString_base64 buffer :
  base64_decode (toString_base64 buffer) = buffer.
Proof.
  induction buffer as [|x|x y|x y z l IH] using list_ind3; [done|..];
    pose proof (Byte.to_N_bounded x) as Hx;
    try pose proof (Byte.to_N_bounded y) as Hy;
    try pose proof (Byte.to_N_bounded z) as Hz;
    cbn [toString_base64 base64_decode]; cbv zeta;
    rewrite !base64_value_char by by_division.
  - change (base64_value 61) with (@None N). f_equal. apply to_byte_eq. by_division.
  - change (base64_value 61) with (@None N).
    f_equal; [|f_equal]; apply to_byte_eq; by_division.
  - rewrite IH. f_equal; [|f_equal; [|f_equal]]; apply to_byte_eq; by_division.
Qed.

(** ** Runs of the model *)

(** C7 — The canonical form on keys that are array indices: the payload
    [{type: "fdc3.portfolio", holdings: {"10": 250, "9": 100}}] has distinct
    keys, and in its canonical text the key ["9"] of [holdings] comes before
    the key ["10"], although ["10" < "9"] as strings: the keys of the
    rewritten object are not in ascending lexicographic order. *)
Theorem canonicalize_array_index_keys :
  distinct_keys Demo.holdings = true
  ∧ canonicalizeContext Demo.holdings
    = js "{" ++ quoted "holdings" ++ js ":{" ++ quoted "9" ++ js ":100,"
        ++ quoted "10" ++ js ":250}," ++ quoted "type" ++ js ":"
        ++ quoted "fdc3.portfolio" ++ js "}"
  ∧ string_lt (js "10") (js "9") = true
  ∧ keys_ascending (sortKeys Demo.holdings) = false.
Proof. by vm_compute. Qed.

(** A property named [__proto__] does not reach the canonical text. *)
Example canonicalize_proto_key :
  canonicalizeContext
    (VObj [(js "type", VStr (js "fdc3.contact")); (js "__proto__", VNum 1%Z)])
  = js "{" ++ quoted "type" ++ js ":" ++ quoted "fdc3.contact" ++ js "}".
Proof. by vm_compute. Qed.

(** The test vectors of RFC 4648. *)
Example toString_base64_vectors :
  toString_base64 (utf8_encode (js "f")) = js "Zg=="
  ∧ toString_base64 (utf8_encode (js "fo")) = js "Zm8="
  ∧ toString_base64 (utf8_encode (js "foo")) = js "Zm9v"
  ∧ toString_base64 (utf8_encode (js "foob")) = js "Zm9vYg=="
  ∧ toString_base64 (utf8_encode (js "fooba")) = js "Zm9vYmE="
  ∧ toString_base64 (utf8_encode (js "foobar")) = js "Zm9vYmFy".
Proof. by vm_compute. Qed.

(** A key of 50 bytes: 68 characters of base64, on two lines. *)
Example derToPem_two_lines :
  derToPem (utf8_encode (js "01234567890123456789012345678901234567890123456789"))
  = js "-----BEGIN PUBLIC KEY-----" ++ [10]
      ++ js "MDEyMzQ1Njc4OTAxMjM0NTY3ODkwMTIzNDU2Nzg5MDEyMzQ1Njc4OTAxMjM0NTY3"
      ++ [10] ++ js "ODk=" ++ [10] ++ js "-----END PUBLIC KEY-----".
Proof. by vm_compute. Qed.


Lemma canonicalize_order_invariant_witness :
  distinct_keys Demo.instrument = true
  ∧ reordered Demo.instrument Demo.instrument'
  ∧ canonicalizeContext Demo.instrument = canonicalizeContext Demo.instrument'
  ∧ utf8_encode (canonicalizeContext Demo.instrument)
    = utf8_encode (canonicalizeContext Demo.instrument').
Proof.
  assert (reordered Demo.instrument Demo.instrument') as Hr.
  { apply (reordered_obj _
             [(js "type", VStr (js "fdc3.instrument"));
              (js "id", VObj [(js "ticker", VStr (js "AAPL"))])]).
    - repeat constructor.
      apply (reordered_obj _ [(js "ticker", VStr (js "AAPL"))]);
        [repeat constructor | reflexivity].
    - apply perm_swap. }
  split; [reflexivity|]. split; [exact Hr|].
  apply (canonicalize_order_invariant (H0 := Demo.runtime)
           Demo.instrument Demo.instrument'); [reflexivity | exact Hr].
Defined.



(** With an algorithm outside the table and a key service that has no key
    for the envelope, the error of [verify] does not name the algorithm. *)
Lemma verify_unsupported_algorithm_unnamed :
  let this := Demo.signer Demo.kms_empty in
  let envelope := Demo.envelope Demo.RSASSA_PSS_SHA_256 in
  ¬ supported (SignedContext.algorithm envelope)
  ∧ ∃ outcome,
      (verify (H0 := Demo.runtime) this envelope []).1 = Ok outcome
      ∧ VerificationResult.error outcome
        = Some (js "Could not retrieve public key from KMS")
      ∧ ¬ rejects_naming outcome (SignedContext.algorithm envelope).
Proof.
  intros this envelope. split.
  - intros [E|E]; by vm_compute in E.
  - eexists. split; [reflexivity|]. split; [reflexivity|].
    intros (_ & detail & [= <-] & Hin). by vm_compute in Hin.
Qed.

Lemma verify_unsupported_algorithm_witness :
  let this := Demo.signer Demo.kms in
  let envelope := Demo.envelope Demo.RSASSA_PSS_SHA_256 in
  ¬ supported (SignedContext.algorithm envelope)
  ∧ send_GetPublicKey (kmsClient this) (key_request envelope)
    = Ok {| GetPublicKeyCommand.PublicKey := Some Demo.publicKey |}
  ∧ (verify (H0 := Demo.runtime) this envelope []).1
    = Ok (rejected (js "Verification error: Unsupported algorithm: "
                    ++ Demo.RSASSA_PSS_SHA_256)).
Proof.
  intros this envelope.
  assert (¬ supported (SignedContext.algorithm envelope)) as Hn.
  { intros [E|E]; by vm_compute in E. }
  split; [exact Hn|]. split; [reflexivity|].
  destruct (verify_unsupported_algorithm (H0 := Demo.runtime) this envelope [] Hn)
    as (_ & [(outcome & E & _ & Hkey)|(raised & Ethrow & _)]); [|done].
  rewrite E. f_equal. apply (Hkey Demo.publicKey). reflexivity.
Defined.

Lemma verify_public_key_unavailable_witness :
  let this := Demo.signer Demo.kms_empty in
  let envelope := Demo.envelope Demo.RSASSA_PSS_SHA_256 in
  send_GetPublicKey (kmsClient this) (key_request envelope)
    = Ok {| GetPublicKeyCommand.PublicKey := None |}
  ∧ verify (H0 := Demo.runtime) this envelope []
    = (Ok (rejected (js "Could not retrieve public key from KMS")),
       [Call_GetPublicKey (key_request envelope)]).
Proof.
  intros this envelope. split; [reflexivity|].
  apply (verify_public_key_unavailable (H0 := Demo.runtime) this envelope []).
  reflexivity.
Defined.


Lemma sign_algorithm_unchecked_witness :
  let this := Demo.signer Demo.kms in
  ¬ supported Demo.RSASSA_PSS_SHA_256
  ∧ ∃ envelope,
      (sign (H0 := Demo.runtime) this Demo.instrument
         (Some Demo.RSASSA_PSS_SHA_256) []).1 = Ok envelope
      ∧ SignedContext.algorithm envelope = Demo.RSASSA_PSS_SHA_256.
Proof.
  intros this. split; [intros [E|E]; by vm_compute in E|].
  eapply (sign_algorithm_unchecked (H0 := Demo.runtime) this Demo.instrument
            Demo.RSASSA_PSS_SHA_256 []).
  reflexivity.
Defined.

(** * Further properties *)

(** ** The canonical form in general *)

#[global] Instance index_le_total : Total index_le.
Proof. intros k1 k2. unfold index_le. lia. Qed.

#[global] Instance index_le_trans : Transitive index_le.
Proof. intros k1 k2 k3. unfold index_le. lia. Qed.

Lemma Sorted_filter {A} (R : relation A) `{!Transitive R} (P : A → Prop)
    `{∀ x, Decision (P x)} l :
  Sorted R l → Sorted R (filter P l).
Proof.
  intros Hs%Sorted_StronglySorted; [|done].
  apply StronglySorted_Sorted.
  induction Hs as [|x l Hs IH Hx]; [constructor|].
  rewrite filter_cons. case_decide; [|done].
  constructor; [done|]. apply Forall_forall. intros y [_ Hy]%list_elem_of_filter.
  rewrite Forall_forall in Hx. by apply Hx.
Qed.

(** A sorted array of keys is left as it is by [sort]. *)
Lemma Array_sort_sorted keys : Sorted sort_le keys → Array_sort keys = keys.
Proof.
  intros Hs. apply (Sorted_unique sort_le); [apply Array_sort_Sorted|done|].
  apply Array_sort_Permutation.
Qed.

Section CanonicalForm.
Context {number : Type}.
Implicit Types (o : value number) (O read : list (jsstring * value number)).

Lemma entries_ext read read' keys :
  (∀ key, key ∈ keys → Get read key = Get read' key) →
  entries read keys = entries read' keys.
Proof.
  induction keys as [|key keys IH]; intros E; [done|].
  unfold entries in *. cbn [omap list_omap].
  rewrite (E key) by by left. rewrite IH; [done|].
  intros k Hk. apply E. by right.
Qed.

Lemma Get_entries read keys key :
  NoDup keys →
  Get (entries read keys) key = if decide (key ∈ keys) then Get read key else None.
Proof.
  induction keys as [|k keys IH]; intros Hnd.
  - case_decide as Hin; [by apply elem_of_nil in Hin|done].
  - apply NoDup_cons in Hnd as [Hk Hnd]. specialize (IH Hnd).
    unfold entries in *. cbn [omap list_omap].
    destruct (decide (k = key)) as [->|Hne].
    + rewrite (decide_True (P := key ∈ key :: keys)) by by left.
      destruct (Get read key) as [v|] eqn:E; cbn [fmap option_fmap option_map Get].
      * by rewrite decide_True.
      * rewrite IH. by rewrite decide_False.
    + destruct (Get read k) as [v|]; cbn [fmap option_fmap option_map Get];
        rewrite ?(decide_False (P := k = key)) by done; rewrite IH;
        (destruct (decide (key ∈ keys)) as [Hin|Hin];
         [rewrite decide_True; [done|by right]
         |rewrite decide_False; [done|]; intros [?|?]%elem_of_cons; congruence]).
Qed.

(** The loop of [sortKeys] creates, in the order of [keys], one property for
    every key but [__proto__]. *)
Lemma foldl_assign_sorted_all read acc keys :
  NoDup (acc.*1 ++ keys) →
  foldl (assign_sorted read) acc keys
  = acc ++ entries read (filter (λ key, key ≠ js "__proto__") keys).
Proof.
  revert acc. induction keys as [|key keys IH]; intros acc Hnd.
  - unfold entries. cbn. by rewrite (right_id_L [] (++)).
  - apply NoDup_app in Hnd as (Hacc & Hdisj & [Hkey Hkeys]%NoDup_cons).
    cbn [foldl]. rewrite filter_cons. unfold assign_sorted at 2.
    assert (NoDup (acc.*1 ++ keys)) as Hnd'.
    { apply NoDup_app. split; [done|]. split; [|done].
      intros x Hx Hin. apply (Hdisj _ Hx). by right. }
    destruct (Get read key) as [v|] eqn:E.
    + unfold OrdinarySet. destruct (decide (key = js "__proto__")) as [->|Hne].
      * rewrite decide_False by (by intros []). by apply IH.
      * rewrite decide_True by done.
        rewrite CreateDataProperty_fresh.
        2:{ intros Hin. apply (Hdisj _ Hin). by left. }
        rewrite IH.
        -- unfold entries. cbn [omap list_omap]. rewrite E.
           cbn [fmap option_fmap option_map]. by rewrite <-(assoc_L (++)).
        -- rewrite fmap_app. cbn [fmap list_fmap fst]. rewrite <-(assoc_L (++)).
           apply NoDup_app. split; [done|]. split; [|by apply NoDup_cons].
           intros x Hx. by apply Hdisj.
    + rewrite IH by done. case_decide; [|done].
      unfold entries. cbn [omap list_omap]. by rewrite E.
Qed.

Lemma sorted_keys_NoDup O : NoDup O.*1 → NoDup (sorted_keys O).
Proof.
  intros Hnd. apply NoDup_filter. by rewrite Array_sort_Permutation.
Qed.

Lemma sorted_keys_Sorted O : Sorted sort_le (sorted_keys O).
Proof. apply Sorted_filter; [apply _|apply Array_sort_Sorted]. Qed.

Lemma elem_of_sorted_keys O key :
  key ∈ sorted_keys O ↔ key ≠ js "__proto__" ∧ key ∈ O.*1.
Proof.
  unfold sorted_keys. rewrite list_elem_of_filter.
  by rewrite Array_sort_Permutation.
Qed.

Lemma sortKeys_object_entries O :
  NoDup O.*1 →
  sortKeys (VObj O)
  = VObj (entries (map (λ p, (p.1, sortKeys p.2)) O) (sorted_keys O)).
Proof.
  intros Hnd. cbn [sortKeys]. f_equal.
  rewrite (Array_sort_unique (Object_keys O) O.*1)
    by apply OwnPropertyKeys_Permutation.
  rewrite foldl_assign_sorted_all; [done|].
  cbn. by rewrite Array_sort_Permutation.
Qed.

Lemma sorted_entries_keys O :
  (entries (map (λ p, (p.1, sortKeys p.2)) O) (sorted_keys O)).*1 = sorted_keys O.
Proof.
  apply entries_keys, Forall_forall. intros key [_ Hin]%elem_of_sorted_keys.
  rewrite Get_fmap_sortKeys. by apply fmap_is_Some, Get_is_Some.
Qed.

(** X1 — What [sortKeys] keeps: the object it builds for an object with
    distinct keys has one property for every key of the object except
    [__proto__], created in ascending order of the keys, and the value of
    each is the rewritten value of the original property.  No other property
    is lost or added. *)
Theorem sortKeys_keeps_properties O :
  NoDup O.*1 →
  ∃ sorted,
    sortKeys (VObj O) = VObj sorted
    ∧ sorted.*1 = filter (λ key, key ≠ js "__proto__") (Array_sort O.*1)
    ∧ sorted.*1 ≡ₚ filter (λ key, key ≠ js "__proto__") O.*1
    ∧ ascending sorted.*1 = true
    ∧ (∀ key, key ≠ js "__proto__" → Get sorted key = sortKeys <$> Get O key)
    ∧ Get sorted (js "__proto__") = None.
Proof.
  intros Hnd. eexists. split; [by apply sortKeys_object_entries|].
  rewrite sorted_entries_keys. fold (sorted_keys O).
  split; [done|]. split; [|split; [|split]].
  - unfold sorted_keys. by rewrite Array_sort_Permutation.
  - apply Sorted_ascending; [apply sorted_keys_Sorted|by apply sorted_keys_NoDup].
  - intros key Hne. rewrite Get_entries by by apply sorted_keys_NoDup.
    rewrite Get_fmap_sortKeys. case_decide as Hin; [done|].
    destruct (Get O key) as [v|] eqn:E; [|done].
    destruct Hin. apply elem_of_sorted_keys. split; [done|].
    apply Get_elem_of in E. apply list_elem_of_fmap. by exists (key, v).
  - rewrite Get_entries by by apply sorted_keys_NoDup.
    rewrite decide_False; [done|]. by intros [? _]%elem_of_sorted_keys.
Qed.

(** X2 — The order in which the canonical text lists the keys of an
    object: first the keys that are array indices, by ascending numeric
    value, then all the other keys, in ascending order of their code units. *)
Theorem sortKeys_enumeration_order O :
  NoDup O.*1 →
  ∃ sorted indices others,
    sortKeys (VObj O) = VObj sorted
    ∧ OwnPropertyKeys sorted = indices ++ others
    ∧ Forall (λ key, is_Some (array_index key)) indices
    ∧ Sorted index_le indices
    ∧ Forall (λ key, array_index key = None) others
    ∧ ascending others = true
    ∧ indices ++ others ≡ₚ filter (λ key, key ≠ js "__proto__") O.*1.
Proof.
  intros Hnd.
  exists (entries (map (λ p, (p.1, sortKeys p.2)) O) (sorted_keys O)).
  exists (merge_sort index_le
            (filter (λ k, is_Some (array_index k)) (sorted_keys O))).
  exists (filter (λ k, array_index k = None) (sorted_keys O)).
  split; [by apply sortKeys_object_entries|].
  split; [unfold OwnPropertyKeys; by rewrite sorted_entries_keys|].
  split; [|split; [|split; [|split]]].
  - apply Forall_forall. intros key.
    rewrite merge_sort_Permutation. by intros [? _]%list_elem_of_filter.
  - apply (Sorted_merge_sort index_le).
  - apply Forall_forall. intros key. by intros [? _]%list_elem_of_filter.
  - apply Sorted_ascending.
    + apply Sorted_filter; [apply _|apply sorted_keys_Sorted].
    + by apply NoDup_filter, sorted_keys_NoDup.
  - rewrite merge_sort_Permutation.
    transitivity (sorted_keys O).
    + rewrite <-(filter_app_complement (λ k, is_Some (array_index k)) (sorted_keys O)) at 3.
      f_equiv. apply reflexive_eq, list_filter_iff.
      intros k. by rewrite eq_None_not_Some.
    + unfold sorted_keys. by rewrite Array_sort_Permutation.
Qed.

(** X3 — The rewritten value is again a tree of objects with distinct keys. *)
Theorem sortKeys_distinct_keys o :
  distinct_keys o = true → distinct_keys (sortKeys o) = true.
Proof.
  intros Hd%Is_true_true_2. apply Is_true_true_1. revert Hd.
  induction o as [| | | |elements IH|properties IH] using value_ind;
    intros Hd; try done.
  - cbn [sortKeys distinct_keys] in *. apply forallb_True in Hd.
    apply forallb_True, Forall_fmap.
    revert Hd. induction IH as [|x l Hx ? IHl]; [done|].
    intros [??]%Forall_cons. apply Forall_cons. split; [by apply Hx|by auto].
  - cbn [distinct_keys] in Hd.
    apply andb_True in Hd as [Hnd%bool_decide_unpack Hd].
    apply forallb_True in Hd.
    rewrite sortKeys_object_entries by done. cbn [distinct_keys].
    apply andb_True. split.
    + apply bool_decide_pack. rewrite sorted_entries_keys.
      by apply sorted_keys_NoDup.
    + apply forallb_True, Forall_forall. intros [k v] Hin. cbn.
      unfold entries in Hin. apply list_elem_of_omap in Hin as (k' & _ & Hk).
      rewrite Get_fmap_sortKeys in Hk.
      destruct (Get properties k') as [w|] eqn:Ew; [|done]. injection Hk as <- <-.
      apply Get_elem_of in Ew. rewrite Forall_forall in IH, Hd.
      apply (IH _ Ew). by apply (Hd _ Ew).
Qed.

Lemma filter_all {A} (P : A → Prop) `{∀ x, Decision (P x)} (l : list A) :
  Forall P l → filter P l = l.
Proof.
  induction 1 as [|x l Hx ? IH]; [done|]. rewrite filter_cons_True by done.
  by rewrite IH.
Qed.

(** X4 — The canonical form is a fixed point: rewriting a rewritten value
    changes nothing, so the canonical text of [sortKeys o] is that of [o]. *)
Theorem sortKeys_idempotent o :
  distinct_keys o = true → sortKeys (sortKeys o) = sortKeys o.
Proof.
  intros Hd%Is_true_true_2. revert Hd.
  induction o as [| | | |elements IH|properties IH] using value_ind;
    intros Hd; try done.
  - cbn [sortKeys distinct_keys] in *. apply forallb_True in Hd. f_equal.
    revert Hd. induction IH as [|x l Hx ? IHl]; [done|].
    intros [??]%Forall_cons. cbn [map]. f_equal; [by apply Hx|by apply IHl].
  - cbn [distinct_keys] in Hd.
    apply andb_True in Hd as [Hnd%bool_decide_unpack Hd].
    apply forallb_True in Hd.
    rewrite (sortKeys_object_entries properties) by done.
    set (read := map (λ p, (p.1, sortKeys p.2)) properties).
    set (keys := sorted_keys properties).
    assert (NoDup keys) as Hkeys by by apply sorted_keys_NoDup.
    assert ((entries read keys).*1 = keys) as Eent by apply sorted_entries_keys.
    rewrite sortKeys_object_entries by by rewrite Eent.
    f_equal.
    assert (sorted_keys (entries read keys) = keys) as ->.
    { unfold sorted_keys at 1. rewrite Eent.
      rewrite Array_sort_sorted by apply sorted_keys_Sorted.
      apply filter_all, Forall_forall. by intros key [? _]%elem_of_sorted_keys. }
    apply entries_ext. intros key Hin.
    rewrite Get_fmap_sortKeys, Get_entries by done.
    rewrite decide_True by done. unfold read. rewrite Get_fmap_sortKeys.
    destruct (Get properties key) as [v|] eqn:E; [|done].
    cbn [fmap option_fmap option_map]. f_equal.
    apply Get_elem_of in E. rewrite Forall_forall in IH, Hd.
    apply (IH _ E). by apply (Hd _ E).
Qed.

(** A property named [__proto__] is not part of the canonical form: an
    object and the same object without that property are rewritten to the
    same value. *)
Lemma sortKeys_without_proto O :
  NoDup O.*1 →
  sortKeys (VObj O) = sortKeys (VObj (filter (λ p, p.1 ≠ js "__proto__") O)).
Proof.
  intros Hnd.
  set (O' := filter (λ p, p.1 ≠ js "__proto__") O).
  assert (O'.*1 = filter (λ key, key ≠ js "__proto__") O.*1) as Ekeys.
  { unfold O'. clear. induction O as [|[k v] O IH]; [done|].
    cbn [fmap list_fmap]. rewrite !filter_cons. cbn [fst].
    case_decide; cbn [fmap list_fmap fst]; by rewrite IH. }
  assert (NoDup O'.*1) as Hnd' by (rewrite Ekeys; by apply NoDup_filter).
  rewrite !sortKeys_object_entries by done. f_equal.
  assert (sorted_keys O' = sorted_keys O) as ->.
  { apply (Sorted_unique sort_le); try apply sorted_keys_Sorted.
    unfold sorted_keys. rewrite !Array_sort_Permutation, Ekeys.
    apply reflexive_eq, filter_all, Forall_forall.
    by intros key [? _]%list_elem_of_filter. }
  apply entries_ext. intros key [Hne _]%elem_of_sorted_keys.
  rewrite !Get_fmap_sortKeys. f_equal. unfold O'. clear -Hne.
  induction O as [|[k v] O IH]; [done|].
  rewrite filter_cons. cbn [fst Get].
  destruct (decide (k = key)) as [->|Hk].
  - rewrite decide_True by done. cbn [Get]. by rewrite decide_True.
  - case_decide; cbn [Get]; rewrite ?decide_False by done; exact IH.
Qed.
End CanonicalForm.

(** ** The canonical text is one line *)

Lemma hex_digit_printable n : 32 ≤ hex_digit n.
Proof. unfold hex_digit. destruct (N.ltb_spec n 10); lia. Qed.

Lemma UnicodeEscape_printable c : Forall (λ u, 32 ≤ u) (UnicodeEscape c).
Proof.
  unfold UnicodeEscape.
  repeat (apply Forall_cons; split); try apply hex_digit_printable; try lia.
  constructor.
Qed.

(** Closed lists of printable code units. *)
Ltac closed_printable := apply (bool_decide_unpack _); by vm_compute.

Ltac printable_cases :=
  repeat case_match;
  repeat match goal with
         | H : (_ <? _) = false |- _ => apply N.ltb_ge in H
         | H : is_trailing_surrogate _ = true |- _ =>
             unfold is_trailing_surrogate in H;
             apply andb_true_iff in H as [H%N.leb_le _]
         end;
  rewrite ?Forall_app, ?Forall_cons;
  repeat split;
  first [ assumption | apply UnicodeEscape_printable | closed_printable
        | constructor | lia ].

Lemma quote_code_units_printable s :
  Forall (λ u, 32 ≤ u) (quote_code_units s).
Proof.
  cut (Forall (λ u, 32 ≤ u) (quote_code_units s)
       ∧ ∀ c, Forall (λ u, 32 ≤ u) (quote_code_units (c :: s))); [by intros [? _]|].
  induction s as [|d s [IH0 IH1]].
  - split; [constructor|]. intros c. cbn [quote_code_units]. printable_cases.
  - split; [apply IH1|]. intros c.
    change (quote_code_units (c :: d :: s)) with
      (if c =? 8 then js "\b" ++ quote_code_units (d :: s)
       else if c =? 9 then js "\t" ++ quote_code_units (d :: s)
       else if c =? 10 then js "\n" ++ quote_code_units (d :: s)
       else if c =? 12 then js "\f" ++ quote_code_units (d :: s)
       else if c =? 13 then js "\r" ++ quote_code_units (d :: s)
       else if c =? 34 then [92; 34] ++ quote_code_units (d :: s)
       else if c =? 92 then [92; 92] ++ quote_code_units (d :: s)
       else if c <? 32 then UnicodeEscape c ++ quote_code_units (d :: s)
       else if is_leading_surrogate c then
         if is_trailing_surrogate d then c :: d :: quote_code_units s
         else UnicodeEscape c ++ quote_code_units (d :: s)
       else if is_trailing_surrogate c
            then UnicodeEscape c ++ quote_code_units (d :: s)
       else c :: quote_code_units (d :: s)).
    specialize (IH1 d). printable_cases.
Qed.

Lemma join_Forall (P : N → Prop) sep (l : list jsstring) :
  Forall P sep → Forall (Forall P) l → Forall P (join sep l).
Proof.
  intros Hsep. induction 1 as [|x l Hx Hl IH]; [constructor|].
  destruct l as [|y l]; [done|].
  change (join sep (x :: y :: l)) with (x ++ sep ++ join sep (y :: l)).
  rewrite !Forall_app. auto.
Qed.

Section OneLine.
Context `{JSONNumber number}.

Lemma JSON_stringify_printable (v : value number) :
  (∀ n : number, Forall (λ u, 32 ≤ u) (SerializeNumber n)) →
  Forall (λ u, 32 ≤ u) (JSON_stringify v).
Proof.
  intros Hnumber.
  induction v as [|b|n|s|elements IH|properties IH] using value_ind;
    cbn [JSON_stringify].
  - closed_printable.
  - destruct b; closed_printable.
  - apply Hnumber.
  - unfold QuoteJSONString. rewrite !Forall_app.
    split; [closed_printable|]. split; [apply quote_code_units_printable|closed_printable].
  - rewrite !Forall_app. split; [closed_printable|]. split; [|closed_printable].
    apply join_Forall; [closed_printable|]. by apply Forall_fmap.
  - rewrite !Forall_app. split; [closed_printable|]. split; [|closed_printable].
    apply join_Forall; [closed_printable|].
    apply Forall_forall. intros text (key & _ & Hm)%list_elem_of_omap.
    unfold member in Hm.
    destruct (Get _ key) as [written|] eqn:E; [|done]. injection Hm as <-.
    apply Forall_cons. split; [done|]. rewrite !Forall_app.
    split; [split; [apply quote_code_units_printable|closed_printable]|].
    apply Forall_cons. split; [by vm_compute|].
    clear -E IH. induction IH as [|[k v] l Hv ? IHl]; [done|].
    cbn [map Get fst snd] in E. case_decide; [by injection E as <-|by apply IHl].
Qed.

(** X5 — The canonical text holds no control character: provided the text
    of a Number holds none, no code unit of [canonicalizeContext(context)] is
    below 32, so the text has no line feed, carriage return or tab, inside
    or outside its string literals. *)
Theorem canonicalizeContext_one_line (context : value number) :
  (∀ n : number, Forall (λ u, 32 ≤ u) (SerializeNumber n)) →
  Forall (λ u, 32 ≤ u ∧ u ≠ 9 ∧ u ≠ 10 ∧ u ≠ 13) (canonicalizeContext context).
Proof.
  intros Hnumber.
  eapply Forall_impl; [exact (JSON_stringify_printable (sortKeys context) Hnumber)|].
  intros u Hu. cbv beta in *. repeat split; lia.
Qed.

(** X6 — A property named [__proto__] does not reach the canonical text:
    a payload and the same payload without that property have the same
    canonical text. *)
Theorem canonicalizeContext_without_proto (properties : list (jsstring * value number)) :
  NoDup properties.*1 →
  canonicalizeContext (VObj properties)
  = canonicalizeContext (VObj (filter (λ p, p.1 ≠ js "__proto__") properties)).
Proof.
  intros Hnd. unfold canonicalizeContext.
  by rewrite (sortKeys_without_proto properties Hnd).
Qed.
End OneLine.

(** ** What [verify] and [sign] look at *)

Section EngineFacts.
Context `{JSONNumber number} `{NodeRuntime}.
Implicit Types (this : FDC3AWSKMSSigner) (signedContext : SignedContext.t number).

(** [verify] sees the payload of an envelope through its canonical text
    only, and does not see the timestamp or the configuration. *)
Lemma verify_canonical this this' signedContext signedContext' log :
  kmsClient this = kmsClient this' →
  SignedContext.keyId signedContext = SignedContext.keyId signedContext' →
  SignedContext.signature signedContext = SignedContext.signature signedContext' →
  SignedContext.algorithm signedContext = SignedContext.algorithm signedContext' →
  canonicalizeContext (SignedContext.context signedContext)
    = canonicalizeContext (SignedContext.context signedContext') →
  (verify this signedContext log).2 = (verify this' signedContext' log).2
  ∧ ((verify this signedContext log).1
       = Ok (accepted (SignedContext.context signedContext))
     ∧ (verify this' signedContext' log).1
       = Ok (accepted (SignedContext.context signedContext'))
     ∨ (∃ detail,
          (verify this signedContext log).1 = Ok (rejected detail)
          ∧ (verify this' signedContext' log).1 = Ok (rejected detail))
     ∨ ∃ raised,
         (verify this signedContext log).1 = Throw raised
         ∧ (verify this' signedContext' log).1 = Throw raised).
Proof.
  assert (∀ error (log1 log2 : list call),
    (caught (number:=number) error, log1).1 = Ok (accepted (SignedContext.context signedContext))
    ∧ (caught (number:=number) error, log2).1 = Ok (accepted (SignedContext.context signedContext'))
    ∨ (∃ detail,
         (caught (number:=number) error, log1).1 = Ok (rejected detail)
         ∧ (caught (number:=number) error, log2).1 = Ok (rejected detail))
    ∨ ∃ raised,
        (caught (number:=number) error, log1).1 = Throw raised
        ∧ (caught (number:=number) error, log2).1 = Throw raised) as Hcaught.
  { intros [message|text|raised] ??; cbn; [right; left; by eauto..|right; right; by eauto]. }
  intros Eclient Ekey Esig Ealg Ecanon. rewrite !verify_unfold. cbv zeta.
  unfold key_request. rewrite <-Eclient, <-Ekey, <-Esig, <-Ealg, <-Ecanon.
  destruct (send_GetPublicKey _ _) as [[[publicKey|]]|error];
    [|by eauto 8|by split; [|apply Hcaught]].
  destruct (getNodeAlgorithm _) as [nodeAlgorithm|error];
    [|by split; [|apply Hcaught]].
  destruct (Verify_verify _ _ _ _) as [[|]|error];
    [by eauto 8..|by split; [|apply Hcaught]].
Qed.

(** X7 — The timestamp of an envelope and the key configured in the
    signer play no part in verification: two envelopes that differ only in
    their timestamp, verified by signers that differ only in their
    configuration, get the same result after the same calls. *)
Theorem verify_ignores_timestamp_and_config this this' signedContext signedContext' log :
  kmsClient this = kmsClient this' →
  SignedContext.context signedContext = SignedContext.context signedContext' →
  SignedContext.signature signedContext = SignedContext.signature signedContext' →
  SignedContext.keyId signedContext = SignedContext.keyId signedContext' →
  SignedContext.algorithm signedContext = SignedContext.algorithm signedContext' →
  verify this signedContext log = verify this' signedContext' log.
Proof.
  intros Eclient Ectx Esig Ekey Ealg. rewrite !verify_unfold. cbv zeta.
  unfold key_request. by rewrite Eclient, Ectx, Esig, Ekey, Ealg.
Qed.

(** X8 — A signature does not depend on the order of the keys of the
    payload: an envelope whose payload has been rebuilt with its properties
    in another order is accepted or rejected as the original, with the same
    error and the same calls; when [verify] throws for the one, it throws
    the same for the other. *)
Theorem verify_reordered_payload this signedContext signedContext' log :
  distinct_keys (SignedContext.context signedContext) = true →
  reordered (SignedContext.context signedContext)
    (SignedContext.context signedContext') →
  SignedContext.keyId signedContext = SignedContext.keyId signedContext' →
  SignedContext.signature signedContext = SignedContext.signature signedContext' →
  SignedContext.algorithm signedContext = SignedContext.algorithm signedContext' →
  (verify this signedContext log).2 = (verify this signedContext' log).2
  ∧ ((verify this signedContext log).1
       = Ok (accepted (SignedContext.context signedContext))
     ∧ (verify this signedContext' log).1
       = Ok (accepted (SignedContext.context signedContext'))
     ∨ (∃ detail,
          (verify this signedContext log).1 = Ok (rejected detail)
          ∧ (verify this signedContext' log).1 = Ok (rejected detail))
     ∨ ∃ raised,
         (verify this signedContext log).1 = Throw raised
         ∧ (verify this signedContext' log).1 = Throw raised).
Proof.
  intros Hd Hr Ekey Esig Ealg. apply verify_canonical; try done.
  unfold canonicalizeContext. by rewrite (sortKeys_reordered _ _ Hd Hr).
Qed.

(** X9 — A property named [__proto__] is not covered by the signature:
    an envelope whose payload carries such a property is accepted or
    rejected exactly as the envelope whose payload lacks it; when [verify]
    throws for the one, it throws the same for the other. *)
Theorem verify_proto_property this signedContext signedContext' properties log :
  NoDup properties.*1 →
  SignedContext.context signedContext = VObj properties →
  SignedContext.context signedContext'
    = VObj (filter (λ p, p.1 ≠ js "__proto__") properties) →
  SignedContext.keyId signedContext = SignedContext.keyId signedContext' →
  SignedContext.signature signedContext = SignedContext.signature signedContext' →
  SignedContext.algorithm signedContext = SignedContext.algorithm signedContext' →
  (verify this signedContext log).2 = (verify this signedContext' log).2
  ∧ ((verify this signedContext log).1
       = Ok (accepted (SignedContext.context signedContext))
     ∧ (verify this signedContext' log).1
       = Ok (accepted (SignedContext.context signedContext'))
     ∨ (∃ detail,
          (verify this signedContext log).1 = Ok (rejected detail)
          ∧ (verify this signedContext' log).1 = Ok (rejected detail))
     ∨ ∃ raised,
         (verify this signedContext log).1 = Throw raised
         ∧ (verify this signedContext' log).1 = Throw raised).
Proof.
  intros Hnd E E' Ekey Esig Ealg. apply verify_canonical; try done.
  unfold canonicalizeContext. rewrite E, E'.
  by rewrite (sortKeys_without_proto properties Hnd).
Qed.

(** X10 — No false positive: [verify] reports [isValid] true exactly when
    the key service returned a public key, the algorithm is in the table and
    the cryptographic verification of the decoded signature over the
    canonical bytes of the payload, under that key, returned true. *)
Theorem verify_valid_iff this signedContext log :
  (∃ outcome,
     (verify this signedContext log).1 = Ok outcome
     ∧ VerificationResult.isValid outcome = true)
  ↔ ∃ publicKey nodeAlgorithm,
      send_GetPublicKey (kmsClient this) (key_request signedContext)
        = Ok {| GetPublicKeyCommand.PublicKey := Some publicKey |}
      ∧ getNodeAlgorithm (SignedContext.algorithm signedContext) = Ok nodeAlgorithm
      ∧ Verify_verify nodeAlgorithm
          (Buffer_from_utf8 (canonicalizeContext (SignedContext.context signedContext)))
          (derToPem publicKey)
          (Buffer_from_base64 (SignedContext.signature signedContext))
        = Ok true.
Proof.
  rewrite verify_unfold. cbv zeta.
  destruct (send_GetPublicKey _ _) as [[[publicKey|]]|error].
  - destruct (getNodeAlgorithm _) as [nodeAlgorithm|error].
    + destruct (Verify_verify _ _ _ _) as [[|]|error] eqn:E.
      * split; [intros _; by eauto|]. intros _. by eexists.
      * split; [by intros (? & [= <-] & ?)|].
        intros (? & ? & [= <-] & [= <-] & E'). by rewrite E in E'.
      * split; [unfold caught; destruct (describe error); by intros (? & [= <-] & ?)|].
        intros (? & ? & [= <-] & [= <-] & E'). by rewrite E in E'.
    + split; [unfold caught; destruct (describe error); by intros (? & [= <-] & ?)|].
      by intros (? & ? & _ & ? & _).
  - split; [by intros (? & [= <-] & ?)|]. by intros (? & ? & ? & _).
  - split; [unfold caught; destruct (describe error); by intros (? & [= <-] & ?)|].
    by intros (? & ? & ? & _).
Qed.

(** X11 — The calls of [verify]: one request for the public key of the
    envelope's key, then at most one cryptographic verification, made only
    with a key of the service and an algorithm of the table.  [verify] never
    asks the service to sign and never reads the clock. *)
Theorem verify_calls this signedContext log :
  ∃ calls,
    (verify this signedContext log).2
      = log ++ Call_GetPublicKey (key_request signedContext) :: calls
    ∧ (calls = []
       ∨ ∃ publicKey nodeAlgorithm,
           send_GetPublicKey (kmsClient this) (key_request signedContext)
             = Ok {| GetPublicKeyCommand.PublicKey := Some publicKey |}
           ∧ getNodeAlgorithm (SignedContext.algorithm signedContext)
             = Ok nodeAlgorithm
           ∧ calls
             = [Call_Verify nodeAlgorithm
                  (Buffer_from_utf8
                     (canonicalizeContext (SignedContext.context signedContext)))
                  (derToPem publicKey)
                  (Buffer_from_base64 (SignedContext.signature signedContext))])
    ∧ ((∀ publicKey,
          send_GetPublicKey (kmsClient this) (key_request signedContext)
            ≠ Ok {| GetPublicKeyCommand.PublicKey := Some publicKey |})
       ∨ ¬ supported (SignedContext.algorithm signedContext) → calls = []).
Proof.
  rewrite verify_unfold. cbv zeta.
  destruct (send_GetPublicKey _ _) as [[[publicKey|]]|error].
  - destruct (getNodeAlgorithm _) as [nodeAlgorithm|error] eqn:Ealg.
    + exists [Call_Verify nodeAlgorithm
                (Buffer_from_utf8
                   (canonicalizeContext (SignedContext.context signedContext)))
                (derToPem publicKey)
                (Buffer_from_base64 (SignedContext.signature signedContext))].
      split; [destruct (Verify_verify _ _ _ _) as [[|]|error];
              cbn [snd]; by rewrite <-(assoc_L (++))|].
      split; [right; by eauto|].
      intros [Hk|Hn]; [by destruct (Hk publicKey)|].
      destruct Hn. apply getNodeAlgorithm_supported. by eexists.
    + exists []. split; [done|]. split; [by left|done].
  - exists []. split; [done|]. split; [by left|done].
  - exists []. split; [done|]. split; [by left|done].
Qed.
(** X12 — Signing does not depend on the order of the keys of the payload:
    for two payloads that differ only in that order, two signers configured
    with the same key send the same request, with the same message bytes,
    whatever their clients, the calls made before and the moments at which
    they sign.  When the service gives the two requests the same answer,
    both calls of [sign] throw the same error, or both return an envelope:
    the two envelopes have the same signature, key and algorithm, and each
    has its own payload and the reading of the clock at its own moment. *)
Theorem sign_reordered_payload
    this this' (payload payload' : value number) algorithm log log' :
  AWSKMSSignerConfig.keyId (config this') = AWSKMSSignerConfig.keyId (config this) →
  distinct_keys payload = true →
  reordered payload payload' →
  let algorithm' := default RSASSA_PKCS1_V1_5_SHA_256 algorithm in
  let request := sign_request this payload algorithm' in
  sign_request this' payload' algorithm' = request
  ∧ (∃ calls,
       (sign this payload algorithm log).2 = log ++ Call_Sign request :: calls)
  ∧ (∃ calls,
       (sign this' payload' algorithm log').2 = log' ++ Call_Sign request :: calls)
  ∧ (send_Sign (kmsClient this') request = send_Sign (kmsClient this) request →
     (∃ raw,
        (sign this payload algorithm log).1
          = Ok (signed this payload algorithm' raw
                  (Date_now (log ++ [Call_Sign request])))
        ∧ (sign this' payload' algorithm log').1
          = Ok (signed this' payload' algorithm' raw
                  (Date_now (log' ++ [Call_Sign request]))))
     ∨ ∃ error,
         (sign this payload algorithm log).1 = Throw error
         ∧ (sign this' payload' algorithm log').1 = Throw error).
Proof.
  intros Ekey Hd Hr algorithm' request.
  assert (sign_request this' payload' algorithm' = request) as Ereq.
  { unfold request, sign_request, canonicalizeContext.
    by rewrite Ekey, (sortKeys_reordered _ _ Hd Hr). }
  split; [done|]. rewrite !sign_unfold. cbv zeta. fold algorithm'.
  rewrite Ereq. fold request.
  split; [|split].
  - destruct (send_Sign (kmsClient this) request) as [[[raw|]]|error]; cbn [snd];
      [rewrite <-(assoc_L (++))|..]; by eexists.
  - destruct (send_Sign (kmsClient this') request) as [[[raw|]]|error]; cbn [snd];
      [rewrite <-(assoc_L (++))|..]; by eexists.
  - intros ->.
    destruct (send_Sign (kmsClient this) request) as [[[raw|]]|error]; by eauto.
Qed.

(** X13 — The calls of [sign]: one signing request, then one reading of the
    clock if and only if an envelope is returned.  [sign] never asks for a
    public key and never runs a verification. *)
Theorem sign_calls this (payload : value number) algorithm log :
  let request :=
    sign_request this payload (default RSASSA_PKCS1_V1_5_SHA_256 algorithm) in
  ((∃ envelope, (sign this payload algorithm log).1 = Ok envelope)
   ∧ (sign this payload algorithm log).2 = log ++ [Call_Sign request; Call_Date_now])
  ∨ ((∃ error, (sign this payload algorithm log).1 = Throw error)
     ∧ (sign this payload algorithm log).2 = log ++ [Call_Sign request]).
Proof.
  intros request. rewrite sign_unfold. cbv zeta. fold request.
  destruct (send_Sign _ _) as [[[raw|]]|error]; cbn [fst snd].
  - left. split; [by eexists|]. by rewrite <-(assoc_L (++)).
  - right. split; [by eexists|done].
  - right. split; [by eexists|done].
Qed.

End EngineFacts.

(** ** Base64 and PEM, continued *)

Lemma base64_char_value n : is_Some (base64_value (base64_char n)).
Proof.
  destruct (N.ltb_spec n 64) as [Hn|Hn].
  - rewrite base64_value_char by done. by eexists.
  - assert (base64_char n = 47) as ->; [|by eexists].
    unfold base64_char.
    rewrite !(proj2 (N.ltb_ge _ _)) by lia.
    by rewrite (proj2 (N.eqb_neq _ _)) by lia.
Qed.

Lemma toString_base64_alphabet (buffer : bytes) :
  length (toString_base64 buffer) = (4 * ((length buffer + 2) / 3))%nat
  ∧ Forall (λ c, is_Some (base64_value c) ∨ c = 61) (toString_base64 buffer).
Proof.
  induction buffer as [|x|x y|x y z l [IHlen IHall]] using list_ind3;
    cbn [toString_base64]; cbv zeta.
  - done.
  - split; [done|]. repeat (apply Forall_cons; split);
      auto using base64_char_value.
  - split; [done|]. repeat (apply Forall_cons; split);
      auto using base64_char_value.
  - split.
    + cbn [length]. rewrite IHlen.
      replace (S (S (S (length l))) + 2)%nat with (length l + 2 + 1 * 3)%nat by lia.
      rewrite Nat.div_add by done. lia.
    + repeat (apply Forall_cons; split); auto using base64_char_value.
Qed.

(** X15 — The shape of an encoded signature: four characters for every
    three bytes, rounded up, each a character of the base64 alphabet or the
    padding [=]. *)
Theorem toString_base64_shape (buffer : bytes) :
  length (toString_base64 buffer) = (4 * ((length buffer + 2) / 3))%nat
  ∧ Forall (λ c, is_Some (base64_value c) ∨ c = 61) (toString_base64 buffer).
Proof. apply toString_base64_alphabet. Qed.

(** X16 — The encoding of a signature loses nothing: different signatures
    have different encodings. *)
Theorem toString_base64_injective (buffer buffer' : bytes) :
  toString_base64 buffer = toString_base64 buffer' → buffer = buffer'.
Proof.
  intros E. rewrite <-(base64_decode_toString_base64 buffer), E.
  apply base64_decode_toString_base64.
Qed.

Lemma derToPem_lines (derBuffer : bytes) :
  derToPem derBuffer
  = pem_header ++ [10]
      ++ join [10] (matches_dot_1_64 [] (toString_base64 derBuffer))
      ++ [10] ++ pem_footer.
Proof.
  destruct (matches_dot_1_64_folded (toString_base64 derBuffer) []
              (toString_base64_no_terminator derBuffer) ltac:(cbn [length]; lia))
    as (Hcat & Hall & Hfold).
  cbn [app] in Hcat. unfold derToPem, String_match. cbv zeta.
  destruct (matches_dot_1_64 [] (toString_base64 derBuffer)) as [|l rest] eqn:E.
  - cbn [concat] in Hcat. by rewrite <-Hcat.
  - cbn [fmap option_fmap option_map or_else].
    destruct (join [10] (l :: rest)) eqn:Ej; [|done].
    exfalso. revert Ej. apply join_nonempty; [done|].
    eapply Forall_impl; [exact Hall|]. simpl. lia.
Qed.

Lemma filter_join_lines (lines : list jsstring) :
  Forall (Forall (λ c, c ≠ 10)) lines →
  filter (λ c, c ≠ 10) (join [10] lines) = concat lines.
Proof.
  induction 1 as [|l lines Hl Hlines IH]; [done|].
  assert (filter (λ c, c ≠ 10) l = l) as El by by apply filter_all.
  destruct lines as [|l' lines].
  - cbn [join concat]. by rewrite (right_id_L [] (++)).
  - change (join [10] (l :: l' :: lines)) with (l ++ [10] ++ join [10] (l' :: lines)).
    rewrite !filter_app, El, IH. cbn [concat]. f_equal.
Qed.

Lemma not_terminator_not_line_feed (s : jsstring) :
  Forall (λ c, is_line_terminator c = false) s → Forall (λ c, c ≠ 10) s.
Proof.
  intros Hs. eapply Forall_impl; [exact Hs|]. intros c Hc ->. by vm_compute in Hc.
Qed.

(** X17 — The PEM text of a key loses nothing: different keys have different
    PEM texts. *)
Theorem derToPem_injective (derBuffer derBuffer' : bytes) :
  derToPem derBuffer = derToPem derBuffer' → derBuffer = derBuffer'.
Proof.
  rewrite !derToPem_lines. intros E.
  apply (inj (app pem_header)), (inj (app [10])) in E.
  rewrite !(assoc_L (++)) in E. apply (inj (λ s, s ++ pem_footer)) in E.
  apply (inj (λ s, s ++ [10])) in E.
  apply (f_equal (filter (λ c, c ≠ 10))) in E.
  assert (∀ der, filter (λ c, c ≠ 10)
                   (join [10] (matches_dot_1_64 [] (toString_base64 der)))
                 = toString_base64 der) as Hbody.
  { intros der.
    destruct (matches_dot_1_64_folded (toString_base64 der) []
                (toString_base64_no_terminator der) ltac:(cbn [length]; lia))
      as (Hcat & _ & _).
    cbn [app] in Hcat. rewrite filter_join_lines; [done|].
    rewrite <-Forall_concat, Hcat.
    apply not_terminator_not_line_feed, toString_base64_no_terminator. }
  rewrite !Hbody in E.
  rewrite <-(base64_decode_toString_base64 derBuffer), E.
  apply base64_decode_toString_base64.
Qed.

Lemma folded_length (lines : list jsstring) :
  folded 64 lines → length lines = ((length (concat lines) + 63) / 64)%nat.
Proof.
  induction lines as [|l lines IH]; [done|].
  destruct lines as [|l' lines].
  - cbn [folded concat length]. rewrite (right_id_L [] (++)). intros Hl.
    apply (Nat.div_unique _ _ _ (length l - 1)%nat); lia.
  - intros [Hl Hf]. specialize (IH Hf).
    change (concat (l :: l' :: lines)) with (l ++ concat (l' :: lines)).
    rewrite length_app, Hl.
    change (length (l :: l' :: lines)) with (S (length (l' :: lines))).
    rewrite IH.
    replace (64 + length (concat (l' :: lines)) + 63)%nat
      with (length (concat (l' :: lines)) + 63 + 1 * 64)%nat by lia.
    rewrite Nat.div_add by done. lia.
Qed.

(** X18 — The size of the PEM text: a key of [n] bytes gives
    [4 * ceil(n / 3)] characters of base64 on [ceil] of that number over 64
    lines; only the empty key gives no line. *)
Theorem derToPem_line_count (derBuffer : bytes) :
  ∃ lines,
    derToPem derBuffer
      = pem_header ++ [10] ++ join [10] lines ++ [10] ++ pem_footer
    ∧ length (concat lines) = (4 * ((length derBuffer + 2) / 3))%nat
    ∧ length lines = ((4 * ((length derBuffer + 2) / 3) + 63) / 64)%nat
    ∧ (lines = [] ↔ derBuffer = []).
Proof.
  exists (matches_dot_1_64 [] (toString_base64 derBuffer)).
  destruct (matches_dot_1_64_folded (toString_base64 derBuffer) []
              (toString_base64_no_terminator derBuffer) ltac:(cbn [length]; lia))
    as (Hcat & _ & Hfold).
  cbn [app] in Hcat. destruct (toString_base64_alphabet derBuffer) as [Hlen _].
  split; [apply derToPem_lines|]. split; [by rewrite Hcat|].
  split; [by rewrite (folded_length _ Hfold), Hcat, Hlen|].
  split.
  - intros E. rewrite E in Hcat. cbn [concat] in Hcat.
    by destruct derBuffer as [|? [|? [|? ?]]].
  - by intros ->.
Qed.

(** ** The callers' test for a signed context *)

(** Evaluates the comparisons of [typeof] results. *)
Ltac typeof_compare :=
  repeat match goal with
         | |- context [bool_decide (js ?a = js ?b)] =>
             let r := eval vm_compute in (bool_decide (js a = js b)) in
             change (bool_decide (js a = js b)) with r
         end.

(** Runs the [&&] chain as far as the values at hand allow. *)
Ltac evaluate :=
  repeat (typeof_compare;
          cbn [and_then typeof_is result_bind GetV ToBoolean typeof negb]).

Section CallerFacts.
Context `{JSNumber number}.
Implicit Types context : option (value number).

Lemma isSignedContext_shape context :
  ∃ v,
    RiskManagementApp.isSignedContext context = Ok v
    ∧ (ToBoolean v = true ↔ signed_shape context).
Proof.
  unfold RiskManagementApp.isSignedContext, signed_shape.
  destruct context as [[| b | n | s | elements | properties]|]; evaluate.
  - eexists; split; [reflexivity|]; split; [done|].
    by intros (? & ? & ? & ? & ? & ? & ? & ?).
  - destruct b; evaluate; (eexists; split; [reflexivity|]; split; [done|]);
      by intros (? & ? & ? & ? & ? & ? & ? & ?).
  - destruct (ToBoolean_number n) eqn:En; repeat progress (evaluate; rewrite ?En);
      (eexists; split; [reflexivity|]; split; [cbn [ToBoolean]; by rewrite ?En|]);
      by intros (? & ? & ? & ? & ? & ? & ? & ?).
  - destruct (bool_decide (s = [])) eqn:Es; repeat progress (evaluate; rewrite ?Es);
      (eexists; split; [reflexivity|]; split; [cbn [ToBoolean negb]; by rewrite ?Es|]);
      by intros (? & ? & ? & ? & ? & ? & ? & ?).
  - eexists; split; [reflexivity|]; split; [done|].
    by intros (? & ? & ? & ? & ? & ? & ? & ?).
  - destruct (Get properties (js "signature")) as [[| | | signature | |]|] eqn:Esig;
      evaluate;
      try (eexists; split; [reflexivity|]; split; [done|];
           intros (? & ? & ? & ? & ? & ? & [= <-] & ? & ?); congruence).
    destruct (Get properties (js "keyId")) as [[| | | keyId | |]|] eqn:Ekey;
      evaluate;
      try (eexists; split; [reflexivity|]; split; [done|];
           intros (? & ? & ? & ? & ? & ? & [= <-] & ? & ? & ?); congruence).
    destruct (Get properties (js "timestamp")) as [[| | timestamp | | |]|] eqn:Ets;
      evaluate;
      try (eexists; split; [reflexivity|]; split; [done|];
           intros (? & ? & ? & ? & ? & ? & [= <-] & ? & ? & ? & ?); congruence).
    destruct (Get properties (js "context")) as [[| b | n | s | elements | payload]|] eqn:Ectx;
      evaluate.
    + eexists; split; [reflexivity|]; split; [done|].
      intros (? & ? & ? & ? & ? & ? & [= <-] & ? & ? & ? & ? & ?); congruence.
    + destruct b; evaluate; (eexists; split; [reflexivity|]; split; [done|]);
        intros (? & ? & ? & ? & ? & ? & [= <-] & ? & ? & ? & ? & ?); congruence.
    + destruct (ToBoolean_number n) eqn:En; repeat progress (evaluate; rewrite ?En);
        (eexists; split; [reflexivity|]; split; [cbn [ToBoolean]; by rewrite ?En|]);
        intros (? & ? & ? & ? & ? & ? & [= <-] & ? & ? & ? & ? & ?); congruence.
    + destruct (bool_decide (s = [])) eqn:Es; repeat progress (evaluate; rewrite ?Es);
        (eexists; split; [reflexivity|]; split; [cbn [ToBoolean negb]; by rewrite ?Es|]);
        intros (? & ? & ? & ? & ? & ? & [= <-] & ? & ? & ? & ? & ?); congruence.
    + eexists; split; [reflexivity|]; split; [done|].
      intros (? & ? & ? & ? & ? & ? & [= <-] & ? & ? & ? & ? & ?); congruence.
    + destruct (Get payload (js "type")) as [[| | | type_ | |]|] eqn:Ety;
        evaluate;
        try (eexists; split; [reflexivity|]; split; [done|];
             intros (? & ? & ? & ? & ? & ? & [= <-] & ? & ? & ? & E & ?);
             rewrite Ectx in E; injection E as <-; congruence).
      eexists. split; [reflexivity|]. split; [|done]. intros _.
      by exists properties, signature, keyId, timestamp, payload, type_.
    + eexists; split; [reflexivity|]; split; [done|].
      intros (? & ? & ? & ? & ? & ? & [= <-] & ? & ? & ? & ? & ?); congruence.
  - eexists; split; [reflexivity|]; split; [done|].
    by intros (? & ? & ? & ? & ? & ? & ? & ?).
Qed.
(** X19 — [isSignedContext] of the example applications never throws,
    whatever it is given ([null] and [undefined] included), and its result
    is truthy exactly for an object with a string [signature], a string
    [keyId], a Number [timestamp] and an object [context] whose [type] is a
    string.  The property [algorithm] is not looked at. *)
Theorem isSignedContext_accepts context :
  ∃ v,
    RiskManagementApp.isSignedContext context = Ok v
    ∧ (ToBoolean v = true ↔ signed_shape context).
Proof. apply isSignedContext_shape. Qed.

(** X20 — The variant of the demonstration application never throws
    either; its result is truthy exactly for an object with a string
    [signature], a string [keyId], a Number [timestamp], a truthy [context]
    and a truthy [algorithm].  The [type] of the payload is not looked at. *)
Theorem isSignedContext_demo_accepts context :
  ∃ v,
    DemoFDC3App.isSignedContext context = Ok v
    ∧ (ToBoolean v = true ↔
       ∃ properties signature keyId timestamp,
         context = Some (VObj properties)
         ∧ Get properties (js "signature") = Some (VStr signature)
         ∧ Get properties (js "keyId") = Some (VStr keyId)
         ∧ Get properties (js "timestamp") = Some (VNum timestamp)
         ∧ ToBoolean (Get properties (js "context")) = true
         ∧ ToBoolean (Get properties (js "algorithm")) = true).
Proof.
  unfold DemoFDC3App.isSignedContext.
  destruct context as [[| b | n | s | elements | properties]|]; evaluate.
  - eexists; split; [reflexivity|]; split; [done|].
    by intros (? & ? & ? & ? & ? & ?).
  - destruct b; evaluate; (eexists; split; [reflexivity|]; split; [done|]);
      by intros (? & ? & ? & ? & ? & ?).
  - destruct (ToBoolean_number n) eqn:En; repeat progress (evaluate; rewrite ?En);
      (eexists; split; [reflexivity|]; split; [cbn [ToBoolean]; by rewrite ?En|]);
      by intros (? & ? & ? & ? & ? & ?).
  - destruct (bool_decide (s = [])) eqn:Es; repeat progress (evaluate; rewrite ?Es);
      (eexists; split; [reflexivity|]; split; [cbn [ToBoolean negb]; by rewrite ?Es|]);
      by intros (? & ? & ? & ? & ? & ?).
  - eexists; split; [reflexivity|]; split; [done|].
    by intros (? & ? & ? & ? & ? & ?).
  - destruct (Get properties (js "signature")) as [[| | | signature | |]|] eqn:Esig;
      evaluate;
      try (eexists; split; [reflexivity|]; split; [done|];
           intros (? & ? & ? & ? & [= <-] & ? & ?); congruence).
    destruct (Get properties (js "keyId")) as [[| | | keyId | |]|] eqn:Ekey;
      evaluate;
      try (eexists; split; [reflexivity|]; split; [done|];
           intros (? & ? & ? & ? & [= <-] & ? & ? & ?); congruence).
    destruct (Get properties (js "timestamp")) as [[| | timestamp | | |]|] eqn:Ets;
      evaluate;
      try (eexists; split; [reflexivity|]; split; [done|];
           intros (? & ? & ? & ? & [= <-] & ? & ? & ? & ?); congruence).
    destruct (ToBoolean (Get properties (js "context"))) eqn:Ectx.
    + exists (Get properties (js "algorithm")). split; [reflexivity|]. split.
      * intros Halg. by exists properties, signature, keyId, timestamp.
      * intros (? & ? & ? & ? & [= <-] & _ & _ & _ & _ & ?). done.
    + exists (Get properties (js "context")). split; [reflexivity|]. split.
      * intros E. by rewrite Ectx in E.
      * intros (? & ? & ? & ? & [= <-] & _ & _ & _ & E & _). by rewrite Ectx in E.
  - eexists; split; [reflexivity|]; split; [done|].
    by intros (? & ? & ? & ? & ? & ?).
Qed.
End CallerFacts.

Section CallersOfSign.
Context `{JSONNumber number} `{JSNumber number} `{NodeRuntime}.

(** X21 — What [sign] returns is a signed context for the callers: the
    object that [sign] returns passes [isSignedContext] exactly when the
    payload that was signed is an object whose [type] is a string. *)
Theorem sign_result_isSignedContext this (payload : value number) algorithm log envelope :
  (sign this payload algorithm log).1 = Ok envelope →
  ∃ v,
    RiskManagementApp.isSignedContext (Some (SignedContext_object envelope)) = Ok v
    ∧ (ToBoolean v = true ↔
       ∃ properties type_,
         payload = VObj properties
         ∧ Get properties (js "type") = Some (VStr type_)).
Proof.
  intros Hsign.
  assert (SignedContext.context envelope = payload) as Epayload.
  { revert Hsign. rewrite sign_unfold. cbv zeta.
    destruct (send_Sign _ _) as [[[raw|]]|error]; cbn [fst]; by intros [= <-]. }
  destruct (isSignedContext_shape (Some (SignedContext_object envelope)))
    as (v & E & Hv).
  exists v. split; [exact E|]. rewrite Hv. unfold signed_shape, SignedContext_object.
  split.
  - intros (properties & ? & ? & ? & cps & type_ & [= <-] & _ & _ & _ & Ectx & Ety).
    exists cps, type_. split; [|done].
    rewrite <-Epayload. by injection Ectx.
  - intros (properties & type_ & -> & Ety).
    eexists _, _, _, _, properties, type_. split; [reflexivity|].
    rewrite Epayload. by repeat split.
Qed.
End CallersOfSign.

(** ** Runs of the further properties *)

Lemma instrument_reordered : reordered Demo.instrument Demo.instrument'.
Proof.
  apply (reordered_obj _
           [(js "type", VStr (js "fdc3.instrument"));
            (js "id", VObj [(js "ticker", VStr (js "AAPL"))])]).
  - repeat constructor.
    apply (reordered_obj _ [(js "ticker", VStr (js "AAPL"))]);
      [repeat constructor | reflexivity].
  - apply perm_swap.
Qed.

Lemma tampered_properties_NoDup : NoDup Cases.tampered_properties.*1.
Proof. apply (bool_decide_unpack _). by vm_compute. Qed.

Lemma decimal_digits_printable fuel n acc :
  Forall (λ u, 32 ≤ u) acc → Forall (λ u, 32 ≤ u) (decimal_digits fuel n acc).
Proof.
  revert n acc. induction fuel as [|fuel IH]; intros n acc Hacc; [done|].
  cbn [decimal_digits]. case_match.
  - apply Forall_cons. split; [lia|done].
  - apply IH, Forall_cons. split; [by_division|done].
Qed.

Lemma Z_number_printable (z : Z) : Forall (λ u, 32 ≤ u) (SerializeNumber z).
Proof.
  unfold SerializeNumber, Z_JSONNumber. cbv zeta. case_match.
  - apply Forall_cons. split; [lia|]. by apply decimal_digits_printable.
  - by apply decimal_digits_printable.
Qed.

(** The envelope with the [__proto__] property is accepted with the
    signature made for the payload without it. *)
Example verify_accepts_added_proto :
  (verify (H0 := Demo.runtime) (Demo.signer Demo.kms)
     (Cases.received Cases.tampered 1700000000000%Z) []).1
  = Ok (accepted Cases.tampered).
Proof. by vm_compute. Qed.

Lemma sortKeys_keeps_properties_witness :
  NoDup Cases.tampered_properties.*1
  ∧ ∃ sorted,
      sortKeys (VObj Cases.tampered_properties) = VObj sorted
      ∧ sorted.*1 = [js "id"; js "type"]
      ∧ Get sorted (js "__proto__") = None.
Proof.
  split; [exact tampered_properties_NoDup|].
  destruct (sortKeys_keeps_properties Cases.tampered_properties
              tampered_properties_NoDup)
    as (sorted & E & Ekeys & _ & _ & _ & Eproto).
  exists sorted. split; [exact E|]. split; [|exact Eproto].
  rewrite Ekeys. reflexivity.
Defined.

Lemma sortKeys_enumeration_order_witness :
  let O : list (jsstring * value Z) :=
    [(js "10", VNum 250%Z); (js "b", VNull); (js "9", VNum 100%Z); (js "a", VNull)] in
  NoDup O.*1
  ∧ ∃ sorted indices others,
      sortKeys (VObj O) = VObj sorted
      ∧ OwnPropertyKeys sorted = indices ++ others
      ∧ OwnPropertyKeys sorted = [js "9"; js "10"; js "a"; js "b"]
      ∧ ascending others = true.
Proof.
  intros O.
  assert (NoDup O.*1) as Hnd by (apply (bool_decide_unpack _); by vm_compute).
  split; [exact Hnd|].
  destruct (sortKeys_enumeration_order O Hnd)
    as (sorted & indices & others & E & Eown & _ & _ & _ & Hasc & _).
  exists sorted, indices, others. split; [exact E|]. split; [exact Eown|].
  split; [|exact Hasc].
  assert (VObj sorted = sortKeys (VObj O)) as Es by (by rewrite E).
  injection Es as ->. reflexivity.
Defined.

Lemma sortKeys_distinct_keys_witness :
  distinct_keys Demo.holdings = true
  ∧ distinct_keys (sortKeys Demo.holdings) = true.
Proof.
  split; [reflexivity|]. apply (sortKeys_distinct_keys Demo.holdings). reflexivity.
Defined.

Lemma sortKeys_idempotent_witness :
  distinct_keys Cases.tampered = true
  ∧ sortKeys (sortKeys Cases.tampered) = sortKeys Cases.tampered.
Proof.
  split; [reflexivity|]. apply (sortKeys_idempotent Cases.tampered). reflexivity.
Defined.

Lemma canonicalizeContext_without_proto_witness :
  NoDup Cases.tampered_properties.*1
  ∧ canonicalizeContext Cases.tampered = canonicalizeContext Demo.instrument.
Proof.
  split; [exact tampered_properties_NoDup|].
  exact (canonicalizeContext_without_proto Cases.tampered_properties
           tampered_properties_NoDup).
Defined.

Lemma canonicalizeContext_one_line_witness :
  (∀ z : Z, Forall (λ u, 32 ≤ u) (SerializeNumber z))
  ∧ Forall (λ u, 32 ≤ u ∧ u ≠ 9 ∧ u ≠ 10 ∧ u ≠ 13)
      (canonicalizeContext Demo.holdings).
Proof.
  split; [exact Z_number_printable|].
  exact (canonicalizeContext_one_line Demo.holdings Z_number_printable).
Defined.

Lemma verify_ignores_timestamp_and_config_witness :
  let this := Demo.signer Demo.kms in
  let envelope := Cases.received Demo.instrument 1700000000000%Z in
  let envelope' := Cases.received Demo.instrument 1800000000000%Z in
  kmsClient this = kmsClient Cases.verifier
  ∧ config this ≠ config Cases.verifier
  ∧ SignedContext.timestamp envelope ≠ SignedContext.timestamp envelope'
  ∧ verify (H0 := Demo.runtime) this envelope []
    = verify (H0 := Demo.runtime) Cases.verifier envelope' [].
Proof.
  intros this envelope envelope'. split; [reflexivity|].
  split; [by intros [= E]|]. split; [by intros [= E]|].
  apply (verify_ignores_timestamp_and_config (H0 := Demo.runtime)
           this Cases.verifier envelope envelope' []); reflexivity.
Defined.

Lemma verify_reordered_payload_witness :
  let this := Demo.signer Demo.kms in
  let envelope := Cases.received Demo.instrument 1700000000000%Z in
  let envelope' := Cases.received Demo.instrument' 1700000000000%Z in
  distinct_keys Demo.instrument = true
  ∧ reordered Demo.instrument Demo.instrument'
  ∧ (verify (H0 := Demo.runtime) this envelope []).2
    = (verify (H0 := Demo.runtime) this envelope' []).2
  ∧ ((verify (H0 := Demo.runtime) this envelope []).1
       = Ok (accepted Demo.instrument)
     ∧ (verify (H0 := Demo.runtime) this envelope' []).1
       = Ok (accepted Demo.instrument')
     ∨ (∃ detail,
          (verify (H0 := Demo.runtime) this envelope []).1 = Ok (rejected detail)
          ∧ (verify (H0 := Demo.runtime) this envelope' []).1 = Ok (rejected detail))
     ∨ ∃ raised,
         (verify (H0 := Demo.runtime) this envelope []).1 = Throw raised
         ∧ (verify (H0 := Demo.runtime) this envelope' []).1 = Throw raised).
Proof.
  intros this envelope envelope'. split; [reflexivity|].
  split; [exact instrument_reordered|].
  apply (verify_reordered_payload (H0 := Demo.runtime) this envelope envelope' []);
    [reflexivity | exact instrument_reordered | reflexivity..].
Defined.

Lemma verify_proto_property_witness :
  let this := Demo.signer Demo.kms in
  let envelope := Cases.received Cases.tampered 1700000000000%Z in
  let envelope' := Cases.received Demo.instrument 1700000000000%Z in
  NoDup Cases.tampered_properties.*1
  ∧ (verify (H0 := Demo.runtime) this envelope []).2
    = (verify (H0 := Demo.runtime) this envelope' []).2
  ∧ ((verify (H0 := Demo.runtime) this envelope []).1
       = Ok (accepted Cases.tampered)
     ∧ (verify (H0 := Demo.runtime) this envelope' []).1
       = Ok (accepted Demo.instrument)
     ∨ (∃ detail,
          (verify (H0 := Demo.runtime) this envelope []).1 = Ok (rejected detail)
          ∧ (verify (H0 := Demo.runtime) this envelope' []).1 = Ok (rejected detail))
     ∨ ∃ raised,
         (verify (H0 := Demo.runtime) this envelope []).1 = Throw raised
         ∧ (verify (H0 := Demo.runtime) this envelope' []).1 = Throw raised).
Proof.
  intros this envelope envelope'. split; [exact tampered_properties_NoDup|].
  apply (verify_proto_property (H0 := Demo.runtime) this envelope envelope'
           Cases.tampered_properties []);
    [exact tampered_properties_NoDup | reflexivity..].
Defined.

Lemma sign_reordered_payload_witness :
  let this := Demo.signer Demo.kms in
  let request :=
    sign_request (H0 := Demo.runtime) this Demo.instrument RSASSA_PKCS1_V1_5_SHA_256 in
  let later := [Call_GetPublicKey {| GetPublicKeyCommand.KeyId := js "alias/fdc3-signing" |}] in
  distinct_keys Demo.instrument = true
  ∧ reordered Demo.instrument Demo.instrument'
  ∧ sign_request (H0 := Demo.runtime) Cases.uploader Demo.instrument'
      RSASSA_PKCS1_V1_5_SHA_256 = request
  ∧ ((∃ raw,
        (sign (H0 := Demo.runtime) this Demo.instrument None []).1
          = Ok (signed this Demo.instrument RSASSA_PKCS1_V1_5_SHA_256 raw
                  1700000000001%Z)
        ∧ (sign (H0 := Demo.runtime) Cases.uploader Demo.instrument' None later).1
          = Ok (signed Cases.uploader Demo.instrument' RSASSA_PKCS1_V1_5_SHA_256 raw
                  1700000000002%Z))
     ∨ ∃ error,
         (sign (H0 := Demo.runtime) this Demo.instrument None []).1 = Throw error
         ∧ (sign (H0 := Demo.runtime) Cases.uploader Demo.instrument' None later).1
           = Throw error).
Proof.
  intros this request later.
  split; [reflexivity|]. split; [exact instrument_reordered|].
  pose proof (sign_reordered_payload (H0 := Demo.runtime) this Cases.uploader
                Demo.instrument Demo.instrument' None [] later
                eq_refl eq_refl instrument_reordered) as (Ereq & _ & _ & Hsame).
  split; [exact Ereq|]. exact (Hsame eq_refl).
Defined.


Lemma toString_base64_injective_witness :
  toString_base64 Cases.raw = toString_base64 Cases.raw ∧ Cases.raw = Cases.raw.
Proof.
  split; [reflexivity|].
  apply (toString_base64_injective Cases.raw Cases.raw). reflexivity.
Defined.

Lemma derToPem_injective_witness :
  derToPem Demo.publicKey = derToPem Demo.publicKey
  ∧ Demo.publicKey = Demo.publicKey.
Proof.
  split; [reflexivity|].
  apply (derToPem_injective Demo.publicKey Demo.publicKey). reflexivity.
Defined.

Lemma sign_result_isSignedContext_witness :
  let this := Demo.signer Demo.kms in
  let envelope :=
    signed this Demo.instrument RSASSA_PKCS1_V1_5_SHA_256 Cases.raw
      1700000000001%Z in
  (sign (H0 := Demo.runtime) this Demo.instrument None []).1 = Ok envelope
  ∧ ∃ v,
      RiskManagementApp.isSignedContext (H := Cases.numbers)
        (Some (SignedContext_object (H := Cases.numbers) envelope)) = Ok v
      ∧ ToBoolean (H := Cases.numbers) v = true.
Proof.
  intros this envelope.
  assert ((sign (H0 := Demo.runtime) this Demo.instrument None []).1 = Ok envelope)
    as Hsign by reflexivity.
  split; [exact Hsign|].
  destruct (sign_result_isSignedContext (H0 := Cases.numbers) (H1 := Demo.runtime)
              this Demo.instrument None [] envelope Hsign) as (v & E & Hv).
  exists v. split; [exact E|]. apply Hv.
  by exists [(js "type", VStr (js "fdc3.instrument"));
             (js "id", VObj [(js "ticker", VStr (js "AAPL"))])],
            (js "fdc3.instrument").
Defined.
